(** * Temalith gateway: the cache-aside layer of [server.js]

    A shallow embedding of the Redis cache-aside code of the Temalith
    backend (stock quotes, current weather, forecast, news by country and
    category, and the news preload sweep), followed by the properties
    checked against it.

    Two snapshots of the server are embedded side by side:
    - [Server]   is [src/server.js];
    - [Snapshot] is [src/unnamed/part_000], the snapshot that also serves
      stock quotes and stores forecasts with another expiry.

    Modelling choices.
    - JavaScript strings are byte strings; [toLowerCase] and [toUpperCase]
      act on the ASCII letters and leave every other byte alone.
    - An [async] function is a state transformer over a [World] that may
      return or throw: [Async A := World -> Outcome A * World].
    - The world holds the Redis store (value and [EX] seconds per key), the
      log of upstream requests issued so far, and the console.
    - The network, [JSON.parse], [JSON.stringify] and [process.env] belong
      to the runtime, not to the repository: they are the fields of a
      [Runtime] record over which every definition is parametric.  The
      upstream reply may depend on the requests made before it.
    - Redis is connected and entries do not expire during a run. *)

From Stdlib Require Import ZArith Ascii String List Lia Decimal DecimalString.
From stdpp Require Import gmap strings list fin_maps pretty.

Set Warnings "-register-all".
Open Scope Z_scope.

(** ** JavaScript strings *)

Definition is_upper (c : ascii) : bool :=
  let n := N_of_ascii c in ((65 <=? n) && (n <=? 90))%N.

Definition is_lower (c : ascii) : bool :=
  let n := N_of_ascii c in ((97 <=? n) && (n <=? 122))%N.

Definition char_toLowerCase (c : ascii) : ascii :=
  if is_upper c then ascii_of_N (N_of_ascii c + 32) else c.

Definition char_toUpperCase (c : ascii) : ascii :=
  if is_lower c then ascii_of_N (N_of_ascii c - 32) else c.

Fixpoint toLowerCase (s : string) : string :=
  match s with
  | EmptyString => EmptyString
  | String c s' => String (char_toLowerCase c) (toLowerCase s')
  end.

Fixpoint toUpperCase (s : string) : string :=
  match s with
  | EmptyString => EmptyString
  | String c s' => String (char_toUpperCase c) (toUpperCase s')
  end.

(** Two characters that differ at most in letter case: equal, or one is the
    capital of the other. *)
Inductive char_case_variant : ascii -> ascii -> Prop :=
  | ccv_same c : char_case_variant c c
  | ccv_capital c :
      is_lower c = true ->
      char_case_variant c (ascii_of_N (N_of_ascii c - 32))
  | ccv_small c :
      is_upper c = true ->
      char_case_variant c (ascii_of_N (N_of_ascii c + 32)).

(** Two strings that differ only in letter case. *)
Inductive case_variant : string -> string -> Prop :=
  | cv_nil : case_variant EmptyString EmptyString
  | cv_cons c d s t :
      char_case_variant c d -> case_variant s t ->
      case_variant (String c s) (String d t).

(** ** JSON values *)

Inductive json : Type :=
  | JNull
  | JBool (b : bool)
  | JNum (d : decimal)
  | JStr (s : string)
  | JArr (items : list json)
  | JObj (fields : list (string * json)).

(** A JavaScript value read out of a JSON document: [None] is [undefined]. *)
Definition jsval := option json.

(** Own property lookup on an object built by [JSON.parse]. *)
Fixpoint prop (k : string) (fields : list (string * json)) : jsval :=
  match fields with
  | [] => None
  | (k', v) :: rest => if String.eqb k k' then Some v else prop k rest
  end.

(** ** Outcomes, the world and asynchronous computations *)

Inductive Outcome (A : Type) : Type :=
  | Return (a : A)
  | Throw (message : string).
Arguments Return {A} a.
Arguments Throw {A} message.

Inductive Stream := Log | Error.

Record World := mkWorld {
  store : gmap string (string * Z);
  calls : list string;
  console : list (Stream * string)
}.

Definition Async (A : Type) : Type := World -> Outcome A * World.

Definition ret {A} (a : A) : Async A := fun w => (Return a, w).

Definition throw {A} (message : string) : Async A :=
  fun w => (Throw message, w).

Definition bind {A B} (m : Async A) (k : A -> Async B) : Async B :=
  fun w =>
    match m w with
    | (Return a, w') => k a w'
    | (Throw e, w') => (Throw e, w')
    end.

(** [try { m } catch (err) { handler err }] *)
Definition try_catch {A} (m : Async A) (handler : string -> Async A) : Async A :=
  fun w =>
    match m w with
    | (Return a, w') => (Return a, w')
    | (Throw e, w') => handler e w'
    end.

Notation "'await' x <- m ; k" := (bind m (fun x => k))
  (at level 10, x name, m at level 100, k at level 200,
   format "'[v' 'await'  x  <-  m ; '/' k ']'").

(** [for (const x of xs) body(x)] *)
Fixpoint for_of {A} (xs : list A) (body : A -> Async unit) : Async unit :=
  match xs with
  | [] => ret tt
  | x :: rest => await _ <- body x; for_of rest body
  end.

(** [Promise.all(tasks)], the tasks taken in array order.  A started task
    is never cancelled: every task runs, and the result rejects with the
    first rejection when there is one. *)
Fixpoint Promise_all {A} (tasks : list (Async A)) : Async (list A) :=
  match tasks with
  | [] => ret []
  | t :: rest =>
      fun w =>
        let '(o, w1) := t w in
        let '(os, w2) := Promise_all rest w1 in
        match o, os with
        | Return a, Return l => (Return (a :: l), w2)
        | Throw e, _ => (Throw e, w2)
        | Return _, Throw e => (Throw e, w2)
        end
  end.

(** [console.log] and [console.error] *)
Definition console_log (line : string) : Async unit :=
  fun w => (Return tt,
            mkWorld (store w) (calls w) (console w ++ [(Log, line)])).

Definition console_error (line : string) : Async unit :=
  fun w => (Return tt,
            mkWorld (store w) (calls w) (console w ++ [(Error, line)])).

(** [cli.get(key)] and [cli.set(key, value, { EX: seconds })] *)
Definition cli_get (key : string) : Async (option string) :=
  fun w => (Return (fst <$> store w !! key), w).

Definition cli_set (key value : string) (EX : Z) : Async unit :=
  fun w => (Return tt,
            mkWorld (<[key := (value, EX)]> (store w)) (calls w) (console w)).

(** [if (cached)]: the reply of [cli.get] is truthy when it is a string that
    is not empty; [null] and the empty string are falsy. *)
Definition truthy (cached : option string) : option string :=
  match cached with
  | Some (String c s) => Some (String c s)
  | _ => None
  end.

(** A synchronous expression that may throw, inside an async function. *)
Definition lift {A} (o : Outcome A) : Async A := fun w => (o, w).

(** [obj[k] = v] on an object literal. *)
Fixpoint assign (k : string) (v : json) (fields : list (string * json))
  : list (string * json) :=
  match fields with
  | [] => [(k, v)]
  | (k', v') :: rest =>
      if String.eqb k k' then (k, v) :: rest else (k', v') :: assign k v rest
  end.

(** ** The runtime *)

Inductive Reply :=
  | NetworkError (message : string)
  | Http (status : Z) (body : string).

Record Runtime := mkRuntime {
  upstream : list string -> string -> Reply;
  JSON_stringify : json -> string;
  JSON_parse : string -> Outcome json;
  WEATHER_API : string;
  GNEWS_API_KEY : string;
  TIINGO_API_KEY : string
}.

Record Response := mkResponse { status : Z; body : string }.

(** [response.ok] *)
Definition ok (r : Response) : bool := (200 <=? status r) && (status r <=? 299).

(** What an Express handler sends back. *)
Inductive Body :=
  | BJson (j : json)
  | BText (s : string).

Record Sent := mkSent { code : Z; payload : Body }.

Definition res_json (j : json) : Sent := mkSent 200 (BJson j).
Definition res_send (s : string) : Sent := mkSent 200 (BText s).
Definition res_status_json (c : Z) (j : json) : Sent := mkSent c (BJson j).

Section Runtime.
Variable E : Runtime.

(** node-fetch's [fetch(url)]: rejects on a transport error only. *)
Definition fetch (url : string) : Async Response :=
  fun w =>
    let w' := mkWorld (store w) (calls w ++ [url]) (console w) in
    match upstream E (calls w) url with
    | NetworkError e => (Throw e, w')
    | Http st b => (Return (mkResponse st b), w')
    end.

(** [response.json()] *)
Definition response_json (r : Response) : Async json :=
  lift (JSON_parse E (body r)).

(** The URL axios requests for [get(url, { params })]: the query string is
    appended to the URL. *)
Definition axios_url (url : string) (params : list (string * string))
  : string :=
  let query :=
    String.concat "&" (map (fun '(k, v) => k +:+ "=" +:+ v) params) in
  url +:+ "?" +:+ query.

(** axios' [get(url, { params })] followed by [.data]: a transport error or
    a status outside 2xx rejects, and the body is parsed as JSON when it can
    be and left a string otherwise. *)
Definition axios_get_data (url : string) (params : list (string * string))
  : Async json :=
  await r <- fetch (axios_url url params);
  if ok r then
    ret (match JSON_parse E (body r) with
         | Return j => j
         | Throw _ => JStr (body r)
         end)
  else throw ("Request failed with status code " +:+ pretty (status r)).
End Runtime.

(** [data[0]] *)
Definition index0 (data : json) : Outcome jsval :=
  match data with
  | JNull => Throw "Cannot read properties of null (reading '0')"
  | JArr items => Return (head items)
  | JObj fields => Return (prop "0" fields)
  | JStr (String c _) => Return (Some (JStr (String c EmptyString)))
  | _ => Return None
  end.

(** [x?.close] *)
Definition optional_close (x : jsval) : jsval :=
  match x with
  | Some (JObj fields) => prop "close" fields
  | _ => None
  end.

(** [x ?? null] *)
Definition or_null (x : jsval) : json :=
  match x with
  | Some v => v
  | None => JNull
  end.

(** ** src/server.js *)

Module Server.

(** The requests served through the cache: [/api/weather/:city],
    [/api/forecast/:city] and [/api/news/:country/:category]. *)
Inductive Request :=
  | GetWeather (city : string)
  | GetForecast (city : string)
  | GetNews (country category : string).

Section Server.
Variable E : Runtime.

Definition rediswea (city : string) : string :=
  "weather:" +:+ toLowerCase city.

Definition weatherUrl (city : string) : string :=
  let openWeatherKey := WEATHER_API E in
  "https://api.openweathermap.org/data/2.5/weather?q=" +:+ city
  +:+ "&units=metric&appid=" +:+ openWeatherKey.

Definition fetchAndStoreWeather (city : string) : Async json :=
  let url := weatherUrl city in
  await response <- fetch E url;
  if negb (ok response)
  then throw ("Failed to fetch weather for " +:+ city)
  else
    await data <- response_json E response;
    await _ <- cli_set (rediswea city) (JSON_stringify E data) (60 * 60);
    await _ <- console_log ("✅ Stored weather for: " +:+ city);
    ret data.

(** [app.get("/api/weather/:city", ...)] *)
Definition weatherHandler (city : string) : Async Sent :=
  let key := rediswea city in
  try_catch
    (await cached <- cli_get key;
     match truthy cached with
     | Some cached =>
         await _ <- console_log ("📦 Served from Redis: " +:+ city);
         await value <- lift (JSON_parse E cached);
         ret (res_json value)
     | None =>
         await data <- fetchAndStoreWeather city;
         ret (res_json data)
     end)
    (fun err =>
       await _ <- console_error err;
       ret (res_status_json 500 (JObj [("error", JStr err)]))).

Definition redisForecastKey (city : string) : string :=
  "forecast:" +:+ toLowerCase city.

Definition forecastUrl (city : string) : string :=
  let openWeatherKey := WEATHER_API E in
  "https://api.openweathermap.org/data/2.5/forecast?q=" +:+ city
  +:+ "&units=metric&appid=" +:+ openWeatherKey.

Definition fetchAndStoreForecast (city : string) : Async json :=
  let url := forecastUrl city in
  await response <- fetch E url;
  if negb (ok response)
  then throw ("Failed to fetch forecast for " +:+ city)
  else
    await data <- response_json E response;
    await _ <- cli_set (redisForecastKey city) (JSON_stringify E data) (60 * 60);
    await _ <- console_log ("✅ Stored forecast for: " +:+ city);
    ret data.

(** [app.get("/api/forecast/:city", ...)] *)
Definition forecastHandler (city : string) : Async Sent :=
  let key := redisForecastKey city in
  try_catch
    (await cached <- cli_get key;
     match truthy cached with
     | Some cached =>
         await _ <- console_log ("📦 Served forecast from Redis: " +:+ city);
         await value <- lift (JSON_parse E cached);
         ret (res_json value)
     | None =>
         await data <- fetchAndStoreForecast city;
         ret (res_json data)
     end)
    (fun err =>
       await _ <- console_error err;
       ret (res_status_json 500 (JObj [("error", JStr err)]))).

Definition countries : list string := ["us"; "sg"; "in"].
Definition categories : list string :=
  ["general"; "nation"; "business"; "technology"; "entertainment"].

Definition redisKey (country category : string) : string :=
  "gnews:" +:+ country +:+ ":" +:+ category.

Definition newsUrl (country category : string) : string :=
  "https://gnews.io/api/v4/top-headlines?category=" +:+ category
  +:+ "&lang=en&country=" +:+ country +:+ "&max=100&apikey="
  +:+ GNEWS_API_KEY E.

Definition fetchAndStoreNews (country category : string) : Async json :=
  let url := newsUrl country category in
  await response <- fetch E url;
  if negb (ok response)
  then throw ("Failed for " +:+ country +:+ "-" +:+ category)
  else
    await data <- response_json E response;
    await _ <- cli_set (redisKey country category) (JSON_stringify E data)
                       (60 * 60 * 6);
    await _ <- console_log ("✅ Stored: " +:+ country +:+ "-" +:+ category);
    ret data.

Definition preloadAllNews : Async unit :=
  await _ <- console_log "🚀 Preloading news data...";
  await _ <- for_of countries (fun country =>
    for_of categories (fun category =>
      try_catch
        (await _ <- fetchAndStoreNews country category; ret tt)
        (fun err =>
           console_error ("❌ Failed: " +:+ country +:+ "-" +:+ category
                          +:+ " " +:+ err))));
  console_log "✅ Preloading complete.".

(** [app.get("/api/news/:country/:category", ...)] *)
Definition newsHandler (country category : string) : Async Sent :=
  let key := redisKey country category in
  try_catch
    (await cached <- cli_get key;
     match truthy cached with
     | Some cached =>
         await _ <- console_log ("📦 Served from Redis: " +:+ country
                                 +:+ "-" +:+ category);
         await value <- lift (JSON_parse E cached);
         ret (res_json value)
     | None =>
         await data <- fetchAndStoreNews country category;
         ret (res_json data)
     end)
    (fun err => ret (res_status_json 500 (JObj [("error", JStr err)]))).

(** [app.get("/backup", ...)] *)
Definition backupHandler : Async Sent :=
  await _ <- preloadAllNews;
  ret (res_send "All country-category data backed up!").

(** The cached routes registered with [app.get], by request. *)
Definition app_get (req : Request) : Async Sent :=
  match req with
  | GetWeather city => weatherHandler city
  | GetForecast city => forecastHandler city
  | GetNews country category => newsHandler country category
  end.

(** The key, the upstream URL and the message of the [!response.ok] error
    of each cached route. *)
Definition cacheKey (req : Request) : string :=
  match req with
  | GetWeather city => rediswea city
  | GetForecast city => redisForecastKey city
  | GetNews country category => redisKey country category
  end.

Definition upstreamUrl (req : Request) : string :=
  match req with
  | GetWeather city => weatherUrl city
  | GetForecast city => forecastUrl city
  | GetNews country category => newsUrl country category
  end.

Definition notOkMessage (req : Request) : string :=
  match req with
  | GetWeather city => "Failed to fetch weather for " +:+ city
  | GetForecast city => "Failed to fetch forecast for " +:+ city
  | GetNews country category => "Failed for " +:+ country +:+ "-" +:+ category
  end.
End Server.
End Server.

(** ** src/unnamed/part_000 *)

Module Snapshot.
Section Snapshot.
Variable E : Runtime.

Definition redisStockKey (symbol : string) : string :=
  "stock:" +:+ toUpperCase symbol.

(** The URL axios requests for a symbol, query string included. *)
Definition stockUrl (symbol : string) : string :=
  axios_url
    ("https://api.tiingo.com/tiingo/daily/" +:+ symbol +:+ "/prices")
    [("token", TIINGO_API_KEY E); ("resampleFreq", "daily")].

Definition fetchAndStoreStock (symbol : string) : Async json :=
  await data <- axios_get_data E
      ("https://api.tiingo.com/tiingo/daily/" +:+ symbol +:+ "/prices")
      [("token", TIINGO_API_KEY E); ("resampleFreq", "daily")];
  await first <- lift (index0 data);
  let lastPrice := or_null (optional_close first) in
  await _ <- cli_set (redisStockKey symbol) (JSON_stringify E lastPrice)
                     (3 * 60 * 60);
  await _ <- console_log ("Stored stock in Redis for: " +:+ symbol);
  ret lastPrice.

Definition SYMBOLS : list string := ["AAPL"; "TSLA"; "MSFT"; "GOOGL"; "NVDA"].

(** The async callback given to [SYMBOLS.map] in [/api/stocks]. *)
Definition stockTask (symbol : string) : Async (string * json) :=
  await cached <- cli_get (redisStockKey symbol);
  match truthy cached with
  | Some cached =>
      await _ <- console_log ("Served from Redis: " +:+ symbol);
      await value <- lift (JSON_parse E cached);
      ret (symbol, value)
  | None =>
      await price <- fetchAndStoreStock symbol;
      ret (symbol, price)
  end.

(** [app.get("/api/stocks", ...)] *)
Definition stocksHandler : Async Sent :=
  try_catch
    (await results <- Promise_all (map stockTask SYMBOLS);
     let prices :=
       fold_left (fun prices r => assign (fst r) (snd r) prices) results [] in
     ret (res_json (JObj prices)))
    (fun _ =>
       ret (res_status_json 500
              (JObj [("error", JStr "ERROR: Failed to fetch stocks")]))).

Definition redisForecastKey (city : string) : string :=
  "forecast:" +:+ toLowerCase city.

Definition forecastUrl (city : string) : string :=
  let openWeatherKey := WEATHER_API E in
  "https://api.openweathermap.org/data/2.5/forecast?q=" +:+ city
  +:+ "&units=metric&appid=" +:+ openWeatherKey.

Definition fetchAndStoreForecast (city : string) : Async json :=
  let url := forecastUrl city in
  await response <- fetch E url;
  if negb (ok response)
  then throw ("Failed to fetch forecast for " +:+ city)
  else
    await data <- response_json E response;
    await _ <- cli_set (redisForecastKey city) (JSON_stringify E data)
                       (6 * 60 * 60);
    await _ <- console_log ("Stored forecast in Redis for: " +:+ city);
    ret data.
End Snapshot.
End Snapshot.

(** ** What a request to the upstream yields

    The payload, or the message of the error the fetcher throws, when [url]
    is requested with node-fetch after the requests [history]:
    a transport error rejects with its own message, a status outside 2xx is
    turned into [notOk], and a body that is not JSON makes [response.json()]
    throw. *)
Definition fetched (E : Runtime) (history : list string) (url notOk : string)
  : Outcome json :=
  match upstream E history url with
  | NetworkError e => Throw e
  | Http st b => if ok (mkResponse st b) then JSON_parse E b else Throw notOk
  end.

(** ** The preload key space and what the sweep logs *)

Definition keyspace : list (string * string) :=
  flat_map (fun country => map (fun category => (country, category))
                               Server.categories)
           Server.countries.

Definition sweepUrls (E : Runtime) (keys : list (string * string)) : list string :=
  map (fun ck => Server.newsUrl E ck.1 ck.2) keys.

(** The key a combination is stored under. *)
Definition sweepKey (ck : string * string) : string :=
  Server.redisKey ck.1 ck.2.

(** What fetching the [i]-th combination of [keys] yields during a sweep
    that starts after the requests [history]. *)
Definition sweepFetched (E : Runtime) (history : list string)
  (keys : list (string * string)) (i : nat) (ck : string * string)
  : Outcome json :=
  fetched E (history ++ take i (sweepUrls E keys))
          (Server.newsUrl E ck.1 ck.2)
          (Server.notOkMessage (Server.GetNews ck.1 ck.2)).

(** The console line of a combination, by the outcome of its fetch. *)
Definition sweepLine (ck : string * string) (o : Outcome json) : Stream * string :=
  match o with
  | Return _ => (Log, "✅ Stored: " +:+ ck.1 +:+ "-" +:+ ck.2)
  | Throw e => (Error, "❌ Failed: " +:+ ck.1 +:+ "-" +:+ ck.2 +:+ " " +:+ e)
  end.

Definition sweepLines (E : Runtime) (history : list string)
  (keys : list (string * string)) : list (Stream * string) :=
  imap (fun i ck => sweepLine ck (sweepFetched E history keys i ck)) keys.

(** The combinations whose fetch fails during the sweep. *)
Definition sweepFailures (E : Runtime) (history : list string)
  (keys : list (string * string)) : list (string * string) :=
  omap id (imap (fun i ck => match sweepFetched E history keys i ck with
                             | Return _ => None
                             | Throw _ => Some ck
                             end) keys).

(** The body of the inner loop of [preloadAllNews], by combination. *)
Definition sweepBody (E : Runtime) (ck : string * string) : Async unit :=
  try_catch
    (await _ <- Server.fetchAndStoreNews E ck.1 ck.2; ret tt)
    (fun err =>
       console_error ("❌ Failed: " +:+ ck.1 +:+ "-" +:+ ck.2
                      +:+ " " +:+ err)).

Definition is_error_line (l : Stream * string) : bool :=
  match l.1 with Error => true | Log => false end.

(** ** The daily price series *)

(** The [date] of a price entry; ISO dates order as strings. *)
Definition entry_date (entry : json) : string :=
  match entry with
  | JObj fields =>
      match prop "date" fields with
      | Some (JStr d) => d
      | _ => ""
      end
  | _ => ""
  end.

(** The closing price of an entry, [null] when it has none. *)
Definition closing_price (entry : json) : json :=
  match entry with
  | JObj fields =>
      match prop "close" fields with
      | Some v => v
      | None => JNull
      end
  | _ => JNull
  end.

(** The entry with the latest date, the first such entry on ties. *)
Fixpoint most_recent (series : list json) : option json :=
  match series with
  | [] => None
  | entry :: rest =>
      match most_recent rest with
      | Some later =>
          if String.ltb (entry_date entry) (entry_date later)
          then Some later else Some entry
      | None => Some entry
      end
  end.

(** The provider lists the latest entry first. *)
Definition newest_first (series : list json) : bool :=
  match series with
  | [] => true
  | entry :: rest =>
      forallb (fun e => String.leb (entry_date e) (entry_date entry)) rest
  end.

(** ** The five stock tasks, one by one

    The outcome of every task of [tasks], run in order from [w]. *)
Fixpoint outcomes {A} (tasks : list (Async A)) (w : World) : list (Outcome A) :=
  match tasks with
  | [] => []
  | t :: rest => (t w).1 :: outcomes rest (t w).2
  end.

Definition rejected {A} (o : Outcome A) : bool :=
  match o with
  | Throw _ => true
  | Return _ => false
  end.

(** ** A test runtime

    A small runtime to run the code on: a compact JSON printer, a parser
    that knows the documents of [documents] by their printed form and
    rejects every other text, fixed credentials, and a network given by the
    test. *)

Module Demo.

Definition print_decimal (d : decimal) : string :=
  match d with
  | Decimal i Nil => NilZero.string_of_int i
  | Decimal i f => NilZero.string_of_int i +:+ "." +:+ NilEmpty.string_of_uint f
  | DecimalExp i Nil e =>
      NilZero.string_of_int i +:+ "e" +:+ NilZero.string_of_int e
  | DecimalExp i f e =>
      NilZero.string_of_int i +:+ "." +:+ NilEmpty.string_of_uint f
      +:+ "e" +:+ NilZero.string_of_int e
  end.

Definition quote (s : string) : string :=
  let q := String (ascii_of_nat 34) EmptyString in q +:+ s +:+ q.

Fixpoint stringify (j : json) : string :=
  match j with
  | JNull => "null"
  | JBool true => "true"
  | JBool false => "false"
  | JNum d => print_decimal d
  | JStr s => quote s
  | JArr items => "[" +:+ String.concat "," (map stringify items) +:+ "]"
  | JObj fields =>
      "{" +:+ String.concat ","
                (map (fun kv => quote kv.1 +:+ ":" +:+ stringify kv.2) fields)
      +:+ "}"
  end.

Definition price : json :=
  JNum (Decimal (Pos (D1 (D7 (D2 Nil)))) (D3 (D5 Nil))).

Definition older_price : json :=
  JNum (Decimal (Pos (D1 (D7 (D0 Nil)))) (D1 Nil)).

(** A reply of the daily price endpoint, latest entry first. *)
Definition entries : list json :=
  [JObj [("date", JStr "2024-05-03T00:00:00.000Z"); ("close", price)];
   JObj [("date", JStr "2024-05-02T00:00:00.000Z"); ("close", older_price)]].

Definition series : json := JArr entries.

Definition weather : json :=
  JObj [("name", JStr "Singapore");
        ("main", JObj [("temp", JNum (Decimal (Pos (D3 (D1 Nil))) (D4 Nil)))])].

Definition headlines : json :=
  JObj [("totalArticles", JNum (Decimal (Pos (D1 Nil)) Nil));
        ("articles", JArr [JObj [("title", JStr "Markets open higher")]])].

Definition documents : list json :=
  [price; older_price; JNull; series; JArr []; weather; headlines].

Fixpoint lookup_document (text : string) (docs : list json) : Outcome json :=
  match docs with
  | [] => Throw "Unexpected token in JSON"
  | d :: rest =>
      if String.eqb text (stringify d) then Return d
      else lookup_document text rest
  end.

Definition parse (text : string) : Outcome json :=
  lookup_document text documents.

Definition runtime (network : list string -> string -> Reply) : Runtime :=
  mkRuntime network stringify parse "weather-key" "gnews-key" "tiingo-key".

Definition empty : World := mkWorld ∅ [] [].

(** Every request is answered with the same document. *)
Definition serving (doc : json) : Runtime :=
  runtime (fun _ _ => Http 200 (stringify doc)).

(** Every request is refused. *)
Definition unavailable : Runtime :=
  runtime (fun _ _ => Http 503 "Service Unavailable").

(** The headlines are served, except for the combinations of [failing]:
    the first of them is answered 429, the others drop the connection. *)
Definition flaky (failing : list (string * string)) : Runtime :=
  runtime (fun _ url =>
    match failing with
    | [] => Http 200 (stringify headlines)
    | first :: others =>
        if String.eqb url (Server.newsUrl (serving headlines) first.1 first.2)
        then Http 429 "Too Many Requests"
        else if existsb (fun ck =>
                  String.eqb url (Server.newsUrl (serving headlines) ck.1 ck.2))
                  others
        then NetworkError "socket hang up"
        else Http 200 (stringify headlines)
    end).

(** The quotes are served, except for the symbols of [failing]. *)
Definition quotes_except (failing : list string) : Runtime :=
  runtime (fun _ url =>
    if existsb (fun symbol =>
         String.eqb url (Snapshot.stockUrl (serving series) symbol)) failing
    then Http 404 "Not Found"
    else Http 200 (stringify series)).

End Demo.

(** A provider that lists the oldest entry first. *)
Module Ascending.

Definition entries : list json := rev Demo.entries.

Definition series : json := JArr entries.

Definition parse (text : string) : Outcome json :=
  Demo.lookup_document text [series].

Definition runtime : Runtime :=
  mkRuntime (fun _ _ => Http 200 (Demo.stringify series)) Demo.stringify parse
    "weather-key" "gnews-key" "tiingo-key".

End Ascending.

(** ** The uncached news search of both snapshots

    [app.get("/api/curnews", ...)]: the caller brings the credential.  The
    query parameters [term] and [apikey] are strings when present. *)

Module Curnews.
Section Curnews.
Variable E : Runtime.

(** The URL of server.js. *)
Definition searchUrl (term apikey : string) : string :=
  "https://newsapi.org/v2/everything?q=" +:+ term +:+ "&apiKey=" +:+ apikey.

(** The URL of the other snapshot, which asks for English articles. *)
Definition searchUrlEn (term apikey : string) : string :=
  "https://newsapi.org/v2/everything?q=" +:+ term +:+ "&apiKey=" +:+ apikey
  +:+ "&lang=en".

(** server.js.  [const { term = "Singapore", apikey } = req.query] gives
    [term] its default only when it is absent, and [!apikey] holds for an
    absent and for an empty key. *)
Definition curnewsHandler (term apikey : option string) : Async Sent :=
  try_catch
    (let term := default "Singapore" term in
     match truthy apikey with
     | None =>
         ret (res_status_json 400 (JObj [("error", JStr "Missing API key")]))
     | Some apikey =>
         let url := searchUrl term apikey in
         await response <- fetch E url;
         await data <- response_json E response;
         ret (res_json data)
     end)
    (fun err =>
       await _ <- console_error ("Error fetching news: " +:+ err);
       ret (res_status_json 500 (JObj [("error", JStr "Failed to fetch news")]))).

(** src/unnamed/part_000 *)
Definition curnewsHandlerEn (term apikey : option string) : Async Sent :=
  try_catch
    (let term := default "Singapore" term in
     match truthy apikey with
     | None =>
         ret (res_status_json 400 (JObj [("error", JStr "Missing API key")]))
     | Some apikey =>
         let url := searchUrlEn term apikey in
         await response <- fetch E url;
         await data <- response_json E response;
         ret (res_json data)
     end)
    (fun err =>
       await _ <- console_error ("Error fetching news: " +:+ err);
       ret (res_status_json 500 (JObj [("error", JStr "Failed to fetch news")]))).
End Curnews.
End Curnews.

(** ** More vocabulary for the properties *)

(** The [EX] each cached route of server.js stores with. *)
Definition routeExpiry (req : Server.Request) : Z :=
  match req with
  | Server.GetWeather _ => 60 * 60
  | Server.GetForecast _ => 60 * 60
  | Server.GetNews _ _ => 60 * 60 * 6
  end.

(** A string of ASCII characters: every byte is below 128.  On such
    strings [toLowerCase] and [toUpperCase] are the functions of the
    language. *)
Fixpoint ascii_only (s : string) : bool :=
  match s with
  | EmptyString => true
  | String c s' => (N_of_ascii c <? 128)%N && ascii_only s'
  end.

(** A string without a colon. *)
Fixpoint colon_free (s : string) : bool :=
  match s with
  | EmptyString => true
  | String c s' => negb (Ascii.eqb c ":") && colon_free s'
  end.

(** The world after every task of [tasks] has run in order from [w]. *)
Fixpoint settled {A} (tasks : list (Async A)) (w : World) : World :=
  match tasks with
  | [] => w
  | t :: rest => settled rest (t w).2
  end.

(** Whether the quote fetcher rejects on a reply: a transport error, a
    status outside 2xx, or a body that is the JSON [null] (reading [[0]] of
    [null] throws). *)
Definition quoteRejected (E : Runtime) (reply : Reply) : bool :=
  match reply with
  | NetworkError _ => true
  | Http st b =>
      if ok (mkResponse st b) then
        match JSON_parse E b with
        | Return JNull => true
        | _ => false
        end
      else true
  end.

(** ** Accounts, tasks and notes of server.js

    The routes over the MongoDB database [metodo].  The database lives in a
    world of its own, [Mongo]: the connection state of the module-level
    [client] and [db], the three collections in natural order, the clock and
    the console.  MongoDB, bcrypt, jsonwebtoken and [ObjectId] are services
    of the runtime, the fields of [Services].

    Modelling choices.
    - A collection is the list of its documents; [findOne], [deleteOne] and
      [findOneAndUpdate] act on the first document that matches.
    - The documents have the fields the routes write; task and note titles
      and contents are JSON values, stored with [undefined] as [null].
    - The [email] and [password] of a request body are strings; request
      bodies are present objects; the payload of a token that verifies
      carries a string [id], as the tokens of [/api/login] do.
    - What [findOneAndUpdate] answers depends on the driver, and
      [modifyResult] says which: an object whose [value] is the document
      after the update or [null] (mongodb 5 and earlier), or that document
      or [null] itself (mongodb 6 and later), on which [.value] is
      [undefined], and throws on [null].
    - The order in which [sort({ createdAt: -1 })] leaves the notes is the
      driver's: [sortNewestFirst] is a service.
    - An operation on an assigned [db] does not fail. *)

Module Metodo.

Definition ObjectID := string.

Record User := mkUser {
  user_id : ObjectID;
  email : string;
  password : string
}.

Record Task := mkTask {
  task_id : ObjectID;
  task_userId : ObjectID;
  task_title : json;
  task_createdAt : Z;
  done : bool;
  completedAt : option Z
}.

Record Note := mkNote {
  note_id : ObjectID;
  note_userId : ObjectID;
  note_title : json;
  content : json;
  note_createdAt : Z
}.

Record Mongo := mkMongo {
  connected : bool;     (* [client] is assigned and its topology connected *)
  db : bool;            (* the module-level [db] is assigned *)
  emailIndex : bool;    (* the unique index on [users.email] exists *)
  users : list User;
  tasks : list Task;
  notes : list Note;
  issued : nat;         (* identifiers and salts drawn so far *)
  clock : Z;            (* what [new Date()] reads *)
  output : list (Stream * string)
}.

Record Services := mkServices {
  connect : Outcome unit;                  (* [client.connect()] *)
  createIndex : Outcome unit;              (* [createIndex({ email: 1 }, ...)] *)
  ObjectId : string -> Outcome ObjectID;   (* [new ObjectId(text)] *)
  generate : nat -> ObjectID;              (* the [_id] of an inserted document *)
  bcrypt_hash : nat -> string -> string;   (* [bcrypt.hash(password, 10)] *)
  bcrypt_compare : string -> string -> bool;
  jwt_sign : ObjectID -> Z -> Outcome string;
  jwt_verify : string -> Z -> Outcome string;  (* the [id] of the payload *)
  modifyResult : bool;      (* [findOneAndUpdate] answers [{ value: ... }] *)
  sortNewestFirst : list Note -> list Note     (* [sort({ createdAt: -1 })] *)
}.

Definition Db (A : Type) : Type := Mongo -> Outcome A * Mongo.

Definition pure {A} (a : A) : Db A := fun w => (Return a, w).

Definition raise {A} (message : string) : Db A := fun w => (Throw message, w).

Definition andThen {A B} (m : Db A) (k : A -> Db B) : Db B :=
  fun w =>
    match m w with
    | (Return a, w') => k a w'
    | (Throw e, w') => (Throw e, w')
    end.

Definition attempt {A} (m : Db A) (handler : string -> Db A) : Db A :=
  fun w =>
    match m w with
    | (Return a, w') => (Return a, w')
    | (Throw e, w') => handler e w'
    end.

Definition sync {A} (o : Outcome A) : Db A := fun w => (o, w).

Notation "'await' x <~ m ; k" := (andThen m (fun x => k))
  (at level 10, x name, m at level 100, k at level 200,
   format "'[v' 'await'  x  <~  m ; '/' k ']'").

Definition print (stream : Stream) (line : string) : Db unit :=
  fun w => (Return tt,
            mkMongo (connected w) (db w) (emailIndex w) (users w) (tasks w)
                    (notes w) (issued w) (clock w)
                    (output w ++ [(stream, line)])).

Definition with_users (f : list User -> list User) (w : Mongo) : Mongo :=
  mkMongo (connected w) (db w) (emailIndex w) (f (users w)) (tasks w)
          (notes w) (issued w) (clock w) (output w).

Definition with_tasks (f : list Task -> list Task) (w : Mongo) : Mongo :=
  mkMongo (connected w) (db w) (emailIndex w) (users w) (f (tasks w))
          (notes w) (issued w) (clock w) (output w).

Definition with_notes (f : list Note -> list Note) (w : Mongo) : Mongo :=
  mkMongo (connected w) (db w) (emailIndex w) (users w) (tasks w)
          (f (notes w)) (issued w) (clock w) (output w).

(** Draws a number for an identifier or a salt. *)
Definition draw : Db nat :=
  fun w => (Return (issued w),
            mkMongo (connected w) (db w) (emailIndex w) (users w) (tasks w)
                    (notes w) (S (issued w)) (clock w) (output w)).

(** [new Date()] *)
Definition now : Db Z := fun w => (Return (clock w), w).

(** *** Collections *)

(** The list without the first element that satisfies [p], and how many
    were removed. *)
Fixpoint remove_first {A} (p : A -> bool) (l : list A) : list A * Z :=
  match l with
  | [] => ([], 0)
  | x :: rest =>
      if p x then (rest, 1)
      else let '(rest', n) := remove_first p rest in (x :: rest', n)
  end.

(** The list with [f] applied to the first element that satisfies [p], and
    that element after the update. *)
Fixpoint update_first {A} (p : A -> bool) (f : A -> A) (l : list A)
  : list A * option A :=
  match l with
  | [] => ([], None)
  | x :: rest =>
      if p x then (f x :: rest, Some (f x))
      else let '(rest', found) := update_first p f rest in (x :: rest', found)
  end.

(** *** The services within a route *)

(** Receivers and filters. *)
Definition byEmail (e : string) (u : User) : bool := String.eqb (email u) e.

Definition ownTask (id userId : ObjectID) (t : Task) : bool :=
  String.eqb (task_id t) id && String.eqb (task_userId t) userId.

Definition ownNote (id userId : ObjectID) (n : Note) : bool :=
  String.eqb (note_id n) id && String.eqb (note_userId n) userId.

(** What a route answers: the status and the document given to [res.json]. *)
Inductive Document :=
  | Msg (msg : string)                   (* [{ msg }] *)
  | Token (token : string)               (* [{ token }] *)
  | TaskList (found : list Task)
  | TaskValue (value : option Task)      (* a task, or [null] *)
  | NoteList (found : list Note)
  | NoteValue (value : option Note)      (* a note, or [null] *)
  | Undefined.                           (* [res.json(undefined)]: no body *)

Record Answer := mkAnswer { answer_status : Z; answer : Document }.

Definition json_ (d : Document) : Answer := mkAnswer 200 d.
Definition status_json (c : Z) (d : Document) : Answer := mkAnswer c d.

(** [x || fallback] on a JSON value that is a string or absent; whether a
    number counts as zero is left to [zero]. *)
Definition or_else (zero : decimal -> bool) (x : jsval) (fallback : json) : json :=
  match x with
  | None => fallback
  | Some JNull => fallback
  | Some (JBool false) => fallback
  | Some (JStr EmptyString) => fallback
  | Some (JNum d) => if zero d then fallback else JNum d
  | Some v => v
  end.

Section Metodo.
Variable S : Services.
Variable zero : decimal -> bool.

(** [connectDB()]; the value returned is whether [db] is assigned. *)
Definition connectDB : Db bool :=
  fun w =>
    if negb (connected w) then
      match connect S with
      | Throw e => (Throw e, w)
      | Return _ =>
          let w1 := mkMongo true true (emailIndex w) (users w) (tasks w)
                      (notes w) (issued w) (clock w)
                      (output w ++ [(Log, "✅ Connected to MongoDB")]) in
          match createIndex S with
          | Return _ =>
              (Return true,
               mkMongo true true true (users w1) (tasks w1) (notes w1)
                       (issued w1) (clock w1)
                       (output w1 ++ [(Log, "✅ Email index ensured (unique)")]))
          | Throw e =>
              (Return true,
               mkMongo true true (emailIndex w1) (users w1) (tasks w1)
                       (notes w1) (issued w1) (clock w1)
                       (output w1 ++ [(Error, "⚠️ Index creation error: " +:+ e)]))
          end
      end
    else (Return (db w), w).

(** [db.collection(name)] on the value of [db]. *)
Definition collection (handle : bool) : Db unit :=
  if handle then pure tt
  else raise "Cannot read properties of undefined (reading 'collection')".

(** [updated.value] on what [findOneAndUpdate] answered, [updated] being
    the document after the update when one matched: the outer [None] is
    [undefined]. *)
Definition value_of {A} (updated : option A) : Outcome (option (option A)) :=
  if modifyResult S then Return (Some updated)
  else match updated with
       | Some _ => Return None
       | None => Throw "Cannot read properties of null (reading 'value')"
       end.

(** [authMiddleware]: [next] is the route, given the [id] of the token. *)
Definition authMiddleware (authorization : option string)
  (next : string -> Db Answer) : Db Answer :=
  match truthy authorization with
  | None => pure (status_json 401 (Msg "No token, authorization denied"))
  | Some token =>
      fun w =>
        match jwt_verify S token (clock w) with
        | Return id => next id w
        | Throw _ => (Return (status_json 401 (Msg "Token is not valid")), w)
        end
  end.

(** [app.post("/api/register", ...)] *)
Definition register (email password : string) : Db Answer :=
  attempt
    (await handle <~ connectDB;
     await _ <~ collection handle;
     await existingUser <~ (fun w => (Return (List.find (byEmail email) (users w)), w));
     match existingUser with
     | Some _ => pure (status_json 400 (Msg "User already exists ❌"))
     | None =>
         await salt <~ draw;
         let hashedPassword := bcrypt_hash S salt password in
         await _ <~ collection handle;
         await _id <~ draw;
         await _ <~ (fun w =>
           if emailIndex w && existsb (byEmail email) (users w)
           then (Throw "E11000 duplicate key error", w)
           else (Return tt,
                 with_users (fun l => l ++ [mkUser (generate S _id) email
                                                   hashedPassword]) w));
         pure (json_ (Msg "Registered successfully ✅"))
     end)
    (fun err =>
       await _ <~ print Error ("Registration Error: " +:+ err);
       pure (status_json 500 (Msg "Server error"))).

(** [app.post("/api/login", ...)] *)
Definition login (email password : string) : Db Answer :=
  attempt
    (await handle <~ connectDB;
     await _ <~ collection handle;
     await user <~ (fun w => (Return (List.find (byEmail email) (users w)), w));
     match user with
     | None => pure (status_json 400 (Msg "User not found ❌"))
     | Some user =>
         let isMatch := bcrypt_compare S password (Metodo.password user) in
         if negb isMatch
         then pure (status_json 400 (Msg "Invalid credentials ❌"))
         else
           await issuedAt <~ now;
           await token <~ sync (jwt_sign S (user_id user) issuedAt);
           pure (json_ (Token token))
     end)
    (fun err =>
       await _ <~ print Error ("Login Error: " +:+ err);
       pure (status_json 500 (Msg "Server error"))).

(** [app.get("/api/tasks", authMiddleware, ...)] *)
Definition getTasks (id : string) : Db Answer :=
  attempt
    (await handle <~ connectDB;
     await _ <~ collection handle;
     await userId <~ sync (ObjectId S id);
     await found <~ (fun w =>
       (Return (List.filter (fun t => String.eqb (task_userId t) userId)
                            (tasks w)), w));
     pure (json_ (TaskList found)))
    (fun err =>
       await _ <~ print Error ("Get Tasks Error: " +:+ err);
       pure (status_json 500 (Msg "Server error"))).

(** [app.post("/api/tasks", authMiddleware, ...)] *)
Definition addTask (title : jsval) (id : string) : Db Answer :=
  attempt
    (await handle <~ connectDB;
     await userId <~ sync (ObjectId S id);
     await createdAt <~ now;
     await _ <~ collection handle;
     await _id <~ draw;
     await _ <~ (fun w =>
       (Return tt,
        with_tasks (fun l => l ++ [mkTask (generate S _id) userId (or_null title)
                                          createdAt false None]) w));
     pure (json_ (Msg "Task added ✅")))
    (fun err =>
       await _ <~ print Error ("Add Task Error: " +:+ err);
       pure (status_json 500 (Msg "Server error"))).

(** [app.put("/api/tasks/:id/done", authMiddleware, ...)] *)
Definition toggleTask (param : string) (id : string) : Db Answer :=
  attempt
    (await handle <~ connectDB;
     await _ <~ collection handle;
     await _id <~ sync (ObjectId S param);
     await userId <~ sync (ObjectId S id);
     await task <~ (fun w => (Return (List.find (ownTask _id userId) (tasks w)), w));
     match task with
     | None => pure (status_json 404 (Msg "Task not found ❌"))
     | Some task =>
         let newDone := negb (done task) in
         await _ <~ collection handle;
         await _id <~ sync (ObjectId S param);
         await userId <~ sync (ObjectId S id);
         await completed <~ (if newDone then await t <~ now; pure (Some t)
                             else pure None);
         await updated <~ (fun w =>
           let '(l, value) :=
             update_first (ownTask _id userId)
               (fun t => mkTask (task_id t) (task_userId t) (task_title t)
                                (task_createdAt t) newDone completed)
               (tasks w) in
           (Return value, with_tasks (fun _ => l) w));
         await value <~ sync (value_of updated);
         match value with
         | Some value => pure (json_ (TaskValue value))
         | None => pure (json_ Undefined)
         end
     end)
    (fun err =>
       await _ <~ print Error ("Toggle Done Error: " +:+ err);
       pure (status_json 500 (Msg "Server error"))).

(** [app.delete("/api/tasks/:id", authMiddleware, ...)] *)
Definition deleteTask (param : string) (id : string) : Db Answer :=
  attempt
    (await handle <~ connectDB;
     await _ <~ collection handle;
     await _id <~ sync (ObjectId S param);
     await userId <~ sync (ObjectId S id);
     await _ <~ (fun w =>
       (Return tt,
        with_tasks (fun l => (remove_first (ownTask _id userId) l).1) w));
     pure (json_ (Msg "Task deleted ✅")))
    (fun err =>
       await _ <~ print Error ("Delete Task Error: " +:+ err);
       pure (status_json 500 (Msg "Server error"))).

(** [app.get("/api/notes", authMiddleware, ...)] *)
Definition getNotes (id : string) : Db Answer :=
  attempt
    (await handle <~ connectDB;
     await _ <~ collection handle;
     await userId <~ sync (ObjectId S id);
     await found <~ (fun w =>
       (Return (sortNewestFirst S
                  (List.filter (fun n => String.eqb (note_userId n) userId)
                               (notes w))), w));
     pure (json_ (NoteList found)))
    (fun err =>
       await _ <~ print Error ("Get Notes Error: " +:+ err);
       pure (status_json 500 (Msg "Server error"))).

(** [app.post("/api/notes", authMiddleware, ...)]: no [try], no
    [connectDB()]; it uses the module-level [db] as it is.  The note sent
    back is the object given to [insertOne], which received its [_id]. *)
Definition addNote (title : jsval) (id : string) : Db Answer :=
  await userId <~ sync (ObjectId S id);
  await createdAt <~ now;
  await handle <~ (fun w => (Return (db w), w));
  await _ <~ collection handle;
  await _id <~ draw;
  let newNote := mkNote (generate S _id) userId
                   (or_else zero title (JStr "Untitled Note"))
                   (JStr "") createdAt in
  await _ <~ (fun w => (Return tt, with_notes (fun l => l ++ [newNote]) w));
  pure (json_ (NoteValue (Some newNote))).

(** [app.get("/api/notes/:id", authMiddleware, ...)] *)
Definition getNote (param : string) (id : string) : Db Answer :=
  attempt
    (await handle <~ connectDB;
     await _ <~ collection handle;
     await _id <~ sync (ObjectId S param);
     await userId <~ sync (ObjectId S id);
     await note <~ (fun w => (Return (List.find (ownNote _id userId) (notes w)), w));
     match note with
     | None => pure (status_json 404 (Msg "Note not found ❌"))
     | Some note => pure (json_ (NoteValue (Some note)))
     end)
    (fun err =>
       await _ <~ print Error ("Get Note Error: " +:+ err);
       pure (status_json 500 (Msg "Server error"))).

(** [app.put("/api/notes/:id", authMiddleware, ...)] *)
Definition updateNote (param : string) (title content : jsval) (id : string)
  : Db Answer :=
  attempt
    (await handle <~ connectDB;
     await _ <~ collection handle;
     await _id <~ sync (ObjectId S param);
     await userId <~ sync (ObjectId S id);
     await updated <~ (fun w =>
       let '(l, value) :=
         update_first (ownNote _id userId)
           (fun n => mkNote (note_id n) (note_userId n) (or_null title)
                            (or_null content) (note_createdAt n))
           (notes w) in
       (Return value, with_notes (fun _ => l) w));
     await value <~ sync (value_of updated);
     match value with
     | Some value => pure (json_ (NoteValue value))
     | None => pure (json_ Undefined)
     end)
    (fun err =>
       await _ <~ print Error ("Update Note Error: " +:+ err);
       pure (status_json 500 (Msg "Server error"))).

(** [app.delete("/api/notes/:id", authMiddleware, ...)] *)
Definition deleteNote (param : string) (id : string) : Db Answer :=
  attempt
    (await handle <~ connectDB;
     await _ <~ collection handle;
     await _id <~ sync (ObjectId S param);
     await userId <~ sync (ObjectId S id);
     await deletedCount <~ (fun w =>
       let '(l, n) := remove_first (ownNote _id userId) (notes w) in
       (Return n, with_notes (fun _ => l) w));
     if deletedCount =? 0
     then pure (status_json 404 (Msg "Note not found ❌"))
     else pure (json_ (Msg "Note deleted ✅")))
    (fun err =>
       await _ <~ print Error ("Delete Note Error: " +:+ err);
       pure (status_json 500 (Msg "Server error"))).
End Metodo.

(** The routes behind [authMiddleware], by request. *)
Inductive Protected :=
  | GetTasks
  | AddTask (title : jsval)
  | ToggleTask (id : string)
  | DeleteTask (id : string)
  | GetNotes
  | AddNote (title : jsval)
  | GetNote (id : string)
  | UpdateNote (id : string) (title content : jsval)
  | DeleteNote (id : string).

Definition route (S : Services) (zero : decimal -> bool) (req : Protected)
  : string -> Db Answer :=
  match req with
  | GetTasks => getTasks S
  | AddTask title => addTask S title
  | ToggleTask id => toggleTask S id
  | DeleteTask id => deleteTask S id
  | GetNotes => getNotes S
  | AddNote title => addNote S zero title
  | GetNote id => getNote S id
  | UpdateNote id title content => updateNote S id title content
  | DeleteNote id => deleteNote S id
  end.

(** A protected request as Express serves it: the middleware, then the
    route. *)
Definition serve (S : Services) (zero : decimal -> bool)
  (authorization : option string) (req : Protected) : Db Answer :=
  authMiddleware S authorization (route S zero req).

(** Whether [connectDB()] yields a database in [w]: the connection is up
    with [db] assigned, or it is down and [client.connect()] succeeds. *)
Definition available (S : Services) (w : Mongo) : bool :=
  if connected w then db w
  else match connect S with
       | Return _ => true
       | Throw _ => false
       end.

(** The routes whose body is inside a [try]: all but [POST /api/notes]. *)
Definition guarded (req : Protected) : bool :=
  match req with
  | AddNote _ => false
  | _ => true
  end.

(** The identifier a route reads from its path, when it has one. *)
Definition param (req : Protected) : option string :=
  match req with
  | ToggleTask id | DeleteTask id | GetNote id | DeleteNote id => Some id
  | UpdateNote id _ _ => Some id
  | _ => None
  end.

(** The tasks and the notes that do not belong to [owner]. *)
Definition tasksOfOthers (owner : ObjectID) (w : Mongo) : list Task :=
  List.filter (fun t => negb (String.eqb (task_userId t) owner)) (tasks w).

Definition notesOfOthers (owner : ObjectID) (w : Mongo) : list Note :=
  List.filter (fun n => negb (String.eqb (note_userId n) owner)) (notes w).

End Metodo.

(** A test database and test services: identifiers are 24 hexadecimal
    digits, the hash of a password is the password behind its salt, and a
    token is the identifier behind a prefix. *)
Module DemoDb.

Definition is_hex (c : ascii) : bool :=
  let n := N_of_ascii c in
  ((48 <=? n) && (n <=? 57) || (97 <=? n) && (n <=? 102))%N.

Fixpoint all_hex (s : string) : bool :=
  match s with
  | EmptyString => true
  | String c s' => is_hex c && all_hex s'
  end.

Definition ObjectId (text : string) : Outcome Metodo.ObjectID :=
  if (String.length text =? 24)%nat && all_hex text then Return text
  else Throw "input must be a 24 character hex string".

Definition generate (n : nat) : Metodo.ObjectID :=
  "65f0000000000000000000" +:+
  String (ascii_of_nat (48 + n / 10 mod 10))
    (String (ascii_of_nat (48 + n mod 10)) EmptyString).

Definition hash (salt : nat) (password : string) : string :=
  "$2a$10$" +:+ pretty (Z.of_nat salt) +:+ "$" +:+ password.

Fixpoint after_dollar (s : string) : string :=
  match s with
  | EmptyString => EmptyString
  | String c s' => if Ascii.eqb c "$" then s' else after_dollar s'
  end.

Definition compare (password hashed : string) : bool :=
  String.eqb (after_dollar (after_dollar (after_dollar (after_dollar hashed))))
             password.

(** The notes by falling date, notes of one date in their order. *)
Fixpoint insert_by_date (n : Metodo.Note) (l : list Metodo.Note)
  : list Metodo.Note :=
  match l with
  | [] => [n]
  | m :: rest =>
      if Metodo.note_createdAt m <? Metodo.note_createdAt n
      then n :: m :: rest
      else m :: insert_by_date n rest
  end.

Definition sort (l : list Metodo.Note) : list Metodo.Note :=
  fold_right insert_by_date [] l.

Definition sign (id : Metodo.ObjectID) (issuedAt : Z) : Outcome string :=
  Return ("jwt." +:+ id).

Definition verify (token : string) (at_ : Z) : Outcome string :=
  if String.prefix "jwt." token
  then Return (String.substring 4 (String.length token - 4) token)
  else Throw "jwt malformed".

Definition services (connect : Outcome unit) : Metodo.Services :=
  Metodo.mkServices connect (Return tt) ObjectId generate hash compare sign
    verify true sort.

(** The same services with a driver that answers the document itself. *)
Definition recent : Metodo.Services :=
  Metodo.mkServices (Return tt) (Return tt) ObjectId generate hash compare sign
    verify false sort.

Definition up : Metodo.Services := services (Return tt).
Definition down : Metodo.Services := services (Throw "ECONNREFUSED").

Definition zero (d : decimal) : bool := false.

Definition alice : Metodo.ObjectID := "aaaaaaaaaaaaaaaaaaaaaaaa".
Definition bob : Metodo.ObjectID := "bbbbbbbbbbbbbbbbbbbbbbbb".
Definition chores : Metodo.ObjectID := "111111111111111111111111".
Definition taxes : Metodo.ObjectID := "222222222222222222222222".
Definition diary : Metodo.ObjectID := "333333333333333333333333".

(** Nothing connected yet, nothing stored. *)
Definition fresh : Metodo.Mongo :=
  Metodo.mkMongo false false false [] [] [] 0 1700000000 [].

(** A connected database with a task of Alice, a task and a note of Bob. *)
Definition busy : Metodo.Mongo :=
  Metodo.mkMongo true true true
    [Metodo.mkUser alice "alice@example.org" (hash 7 "wonderland")]
    [Metodo.mkTask chores alice (JStr "chores") 1690000000 false None;
     Metodo.mkTask taxes bob (JStr "taxes") 1690000100 true (Some 1690000200)]
    [Metodo.mkNote diary bob (JStr "diary") (JStr "dear diary") 1690000300]
    10 1700000000 [].

End DemoDb.

(** * Properties *)

(** ** Proof support *)

Arguments Server.rediswea : simpl never.
Arguments Server.redisForecastKey : simpl never.
Arguments Server.redisKey : simpl never.
Arguments Server.weatherUrl : simpl never.
Arguments Server.forecastUrl : simpl never.
Arguments Server.newsUrl : simpl never.
Arguments Snapshot.redisStockKey : simpl never.
Arguments Snapshot.redisForecastKey : simpl never.
Arguments Snapshot.forecastUrl : simpl never.
Arguments Snapshot.stockUrl : simpl never.
Arguments String.append : simpl never.

Ltac unfold_async :=
  unfold try_catch, bind, ret, throw, lift, cli_get, cli_set, console_log,
    console_error, response_json, fetch in *.

(** ** Cache keys and letter case *)

Lemma char_case_variant_lower c d :
  char_case_variant c d -> char_toLowerCase c = char_toLowerCase d.
Proof.
  destruct 1 as [c|c H|c H]; [reflexivity| |];
    destruct c as [[] [] [] [] [] [] [] []];
    vm_compute in H; try discriminate H; reflexivity.
Qed.

Lemma char_case_variant_upper c d :
  char_case_variant c d -> char_toUpperCase c = char_toUpperCase d.
Proof.
  destruct 1 as [c|c H|c H]; [reflexivity| |];
    destruct c as [[] [] [] [] [] [] [] []];
    vm_compute in H; try discriminate H; reflexivity.
Qed.

Lemma toLowerCase_case_variant s t :
  case_variant s t -> toLowerCase s = toLowerCase t.
Proof.
  induction 1 as [|c d s t Hc _ IH]; simpl; [reflexivity|].
  now rewrite (char_case_variant_lower c d Hc), IH.
Qed.

Lemma toUpperCase_case_variant s t :
  case_variant s t -> toUpperCase s = toUpperCase t.
Proof.
  induction 1 as [|c d s t Hc _ IH]; simpl; [reflexivity|].
  now rewrite (char_case_variant_upper c d Hc), IH.
Qed.

(** The weather, forecast and stock keys do not depend on the letter case of
    the parameter. *)
Lemma normalised_keys_case_insensitive s t :
  case_variant s t ->
  Server.rediswea s = Server.rediswea t /\
  Server.redisForecastKey s = Server.redisForecastKey t /\
  Snapshot.redisForecastKey s = Snapshot.redisForecastKey t /\
  Snapshot.redisStockKey s = Snapshot.redisStockKey t.
Proof.
  intros H.
  unfold Server.rediswea, Server.redisForecastKey, Snapshot.redisForecastKey,
    Snapshot.redisStockKey.
  now rewrite (toLowerCase_case_variant s t H), (toUpperCase_case_variant s t H).
Qed.

Lemma normalised_keys_case_insensitive_example :
  case_variant "AAPL" "aapl" /\
  Snapshot.redisStockKey "AAPL" = Snapshot.redisStockKey "aapl" /\
  Server.rediswea "Singapore" = "weather:singapore".
Proof.
  split; [|split; reflexivity].
  repeat first [ apply cv_nil | apply cv_cons; [ now apply ccv_small |] ].
Defined.

(** C1 (fails on the code): the news key takes country and category as they
    come, so two requests that differ only in letter case get two keys;
    the weather, forecast and stock keys are case-normalised
    ([normalised_keys_case_insensitive]). *)
Theorem redisKey_case_sensitive :
  case_variant "US" "us" /\ case_variant "General" "general" /\
  Server.redisKey "US" "General" = "gnews:US:General" /\
  Server.redisKey "us" "general" = "gnews:us:general" /\
  Server.redisKey "US" "General" <> Server.redisKey "us" "general".
Proof.
  split; [|split; [|split; [|split]]]; try reflexivity; try discriminate.
  - repeat first [ apply cv_nil | apply cv_cons; [ now apply ccv_small |] ].
  - apply cv_cons; [now apply ccv_small|].
    repeat first [ apply cv_nil | apply cv_cons; [ apply ccv_same |] ].
Qed.

(** ** The cached routes of server.js *)

Ltac unfold_routes :=
  unfold Server.app_get, Server.cacheKey, Server.upstreamUrl,
    Server.notOkMessage, Server.weatherHandler, Server.forecastHandler,
    Server.newsHandler, Server.fetchAndStoreWeather,
    Server.fetchAndStoreForecast, Server.fetchAndStoreNews in *.

(** C4: a miss followed by a successful fetch stores the payload, and the
    same request made again is served from the store: both calls answer the
    same payload and the upstream is requested exactly once.  The runtime
    facts used are that the payload prints to a text that is not empty and
    that parses back to it. *)
Theorem cache_aside_second_call_is_hit E req w data :
  truthy (fst <$> store w !! Server.cacheKey req) = None ->
  fetched E (calls w) (Server.upstreamUrl E req) (Server.notOkMessage req)
    = Return data ->
  JSON_stringify E data <> "" ->
  JSON_parse E (JSON_stringify E data) = Return data ->
  let first := Server.app_get E req w in
  let second := Server.app_get E req first.2 in
  first.1 = Return (res_json data) /\
  second.1 = Return (res_json data) /\
  calls first.2 = calls w ++ [Server.upstreamUrl E req] /\
  calls second.2 = calls first.2 /\
  fst <$> store first.2 !! Server.cacheKey req = Some (JSON_stringify E data) /\
  store second.2 = store first.2.
Proof.
  intros Hmiss Hfetch Hne Hback. unfold fetched in Hfetch.
  destruct req; unfold_routes; unfold_async; simpl;
    rewrite Hmiss;
    (destruct (upstream E _ _) as [e|st b]; [discriminate Hfetch|]);
    (destruct (ok (mkResponse st b)); [|discriminate Hfetch]);
    simpl; rewrite Hfetch; simpl; rewrite lookup_insert_eq; simpl;
    (destruct (JSON_stringify E data) eqn:Hs; [done|]); simpl;
    rewrite Hback; simpl; done.
Qed.

Lemma cache_aside_second_call_is_hit_witness :
  let E := Demo.serving Demo.weather in
  let first := Server.app_get E (Server.GetWeather "Singapore") Demo.empty in
  let second := Server.app_get E (Server.GetWeather "Singapore") first.2 in
  first.1 = Return (res_json Demo.weather) /\
  second.1 = Return (res_json Demo.weather) /\
  calls first.2 = [Server.weatherUrl E "Singapore"] /\
  calls second.2 = calls first.2 /\
  fst <$> store first.2 !! "weather:singapore"
    = Some (Demo.stringify Demo.weather) /\
  store second.2 = store first.2.
Proof.
  apply (cache_aside_second_call_is_hit (Demo.serving Demo.weather)
           (Server.GetWeather "Singapore") Demo.empty Demo.weather);
    [reflexivity | reflexivity | discriminate | reflexivity].
Defined.

(** The three ways a fetch fails. *)
Lemma fetched_throw E history url notOk e :
  fetched E history url notOk = Throw e <->
  upstream E history url = NetworkError e \/
  (exists st b, upstream E history url = Http st b /\
                ok (mkResponse st b) = false /\ e = notOk) \/
  (exists st b, upstream E history url = Http st b /\
                ok (mkResponse st b) = true /\ JSON_parse E b = Throw e).
Proof.
  unfold fetched. destruct (upstream E history url) as [e'|st b].
  - split; [intros [= ->]; now left|].
    intros [[= ->]|[(? & ? & [=] & _)|(? & ? & [=] & _)]]. done.
  - destruct (ok (mkResponse st b)) eqn:Hok.
    + split; [intros H; right; right; eauto|].
      intros [[=]|[(? & ? & [= <- <-] & Hno & _)|(? & ? & [= <- <-] & _ & H)]];
        [congruence | done].
    + split; [intros [= <-]; right; left; eauto|].
      intros [[=]|[(? & ? & [= <- <-] & _ & ->)|(? & ? & [= <- <-] & Hyes & _)]];
        [done | congruence].
Qed.

(** C5: when the lookup misses and the fetch fails (transport error, status
    outside 2xx, or a body that is not JSON), the route answers 500 with the
    error and the store is left as it was: nothing is written, and a key
    that was absent is still absent. *)
Theorem failed_fetch_writes_nothing E req w e :
  truthy (fst <$> store w !! Server.cacheKey req) = None ->
  fetched E (calls w) (Server.upstreamUrl E req) (Server.notOkMessage req)
    = Throw e ->
  let r := Server.app_get E req w in
  r.1 = Return (res_status_json 500 (JObj [("error", JStr e)])) /\
  store r.2 = store w /\
  (cli_get (Server.cacheKey req) r.2).1 = (cli_get (Server.cacheKey req) w).1 /\
  (store w !! Server.cacheKey req = None ->
   store r.2 !! Server.cacheKey req = None).
Proof.
  intros Hmiss Hfetch. unfold fetched in Hfetch.
  destruct req; unfold_routes; unfold_async; simpl;
    rewrite Hmiss;
    (destruct (upstream E _ _) as [e'|st b]; simpl;
     [injection Hfetch as ->; done|]);
    (destruct (ok (mkResponse st b)); simpl;
     [rewrite Hfetch; done | injection Hfetch as <-; done]).
Qed.

Lemma failed_fetch_writes_nothing_witness :
  let r := Server.app_get Demo.unavailable (Server.GetWeather "singapore")
             Demo.empty in
  r.1 = Return (res_status_json 500
          (JObj [("error", JStr "Failed to fetch weather for singapore")])) /\
  store r.2 = store Demo.empty /\
  (cli_get "weather:singapore" r.2).1 = (cli_get "weather:singapore" Demo.empty).1 /\
  (store Demo.empty !! "weather:singapore" = None ->
   store r.2 !! "weather:singapore" = None).
Proof.
  apply (failed_fetch_writes_nothing Demo.unavailable
           (Server.GetWeather "singapore") Demo.empty
           "Failed to fetch weather for singapore");
    reflexivity.
Defined.

(** C8: a cached value that is not empty and does not parse makes the route
    answer 500 with the parse error; the upstream is not requested and the
    store is not written. *)
Theorem corrupt_cached_value_is_fatal E req w cached EX e :
  store w !! Server.cacheKey req = Some (cached, EX) ->
  cached <> "" ->
  JSON_parse E cached = Throw e ->
  let r := Server.app_get E req w in
  r.1 = Return (res_status_json 500 (JObj [("error", JStr e)])) /\
  calls r.2 = calls w /\
  store r.2 = store w.
Proof.
  intros Hget Hne Hparse.
  destruct cached as [|c s]; [done|].
  destruct req; unfold_routes; unfold_async; simpl;
    rewrite Hget; simpl; rewrite Hparse; done.
Qed.

Lemma corrupt_cached_value_is_fatal_witness :
  let w := mkWorld {[ "gnews:us:general" := ("{not json", 21600) ]} [] [] in
  let r := Server.app_get (Demo.serving Demo.headlines)
             (Server.GetNews "us" "general") w in
  r.1 = Return (res_status_json 500
          (JObj [("error", JStr "Unexpected token in JSON")])) /\
  calls r.2 = calls w /\
  store r.2 = store w.
Proof.
  apply (corrupt_cached_value_is_fatal (Demo.serving Demo.headlines)
           (Server.GetNews "us" "general")
           (mkWorld {[ "gnews:us:general" := ("{not json", 21600) ]} [] [])
           "{not json" 21600 "Unexpected token in JSON");
    [reflexivity | discriminate | reflexivity].
Defined.

(** ** The forecast fetcher in the two snapshots *)

(** C7 (as the code has it): the forecast fetch-and-store of server.js and
    that of the other snapshot request the same URL, use the same key, fail
    alike and return and store the same payload.  They differ in two
    places: the expiry set on the stored entry, 3600 seconds in server.js
    and 21600 seconds in the snapshot, and the wording of the line logged
    after storing. *)
Theorem forecast_snapshots_differ_in_expiry_and_log E city w :
  let a := Server.fetchAndStoreForecast E city w in
  let b := Snapshot.fetchAndStoreForecast E city w in
  let key := Server.redisForecastKey city in
  Server.forecastUrl E city = Snapshot.forecastUrl E city /\
  Snapshot.redisForecastKey city = key /\
  a.1 = b.1 /\
  a.1 = fetched E (calls w) (Server.forecastUrl E city)
          (Server.notOkMessage (Server.GetForecast city)) /\
  calls a.2 = calls w ++ [Server.forecastUrl E city] /\
  calls b.2 = calls a.2 /\
  match a.1 with
  | Return data =>
      store a.2 = <[key := (JSON_stringify E data, 3600)]> (store w) /\
      store b.2 = <[key := (JSON_stringify E data, 21600)]> (store w) /\
      console a.2 = console w ++ [(Log, "✅ Stored forecast for: " +:+ city)] /\
      console b.2 =
        console w ++ [(Log, "Stored forecast in Redis for: " +:+ city)]
  | Throw _ =>
      store a.2 = store w /\ store b.2 = store w /\
      console a.2 = console w /\ console b.2 = console w
  end.
Proof.
  unfold Server.fetchAndStoreForecast, Snapshot.fetchAndStoreForecast, fetched,
    Server.notOkMessage.
  change (Snapshot.forecastUrl E city) with (Server.forecastUrl E city).
  change (Snapshot.redisForecastKey city) with (Server.redisForecastKey city).
  unfold_async; simpl.
  destruct (upstream E (calls w) (Server.forecastUrl E city)) as [e|st b];
    simpl; [done|].
  destruct (ok (mkResponse st b)); simpl; [|done].
  destruct (JSON_parse E b) as [data|e]; simpl; done.
Qed.

(** C7 (as stated, fails on the code): the expiry is not the only
    difference.  On the same successful fetch the two functions leave
    different consoles, while the entries they store differ in the expiry
    alone. *)
Lemma forecast_snapshots_log_differently :
  let E := Demo.serving Demo.weather in
  let a := Server.fetchAndStoreForecast E "Singapore" Demo.empty in
  let b := Snapshot.fetchAndStoreForecast E "Singapore" Demo.empty in
  a.1 = b.1 /\
  store a.2 = {[ "forecast:singapore" := (Demo.stringify Demo.weather, 3600) ]} /\
  store b.2 = {[ "forecast:singapore" := (Demo.stringify Demo.weather, 21600) ]} /\
  console a.2 = [(Log, "✅ Stored forecast for: Singapore")] /\
  console b.2 = [(Log, "Stored forecast in Redis for: Singapore")] /\
  console a.2 <> console b.2.
Proof.
  repeat split; try reflexivity. vm_compute. discriminate.
Qed.

(** The two expiries on a run: the same forecast stored by each snapshot. *)
Lemma forecast_snapshots_differ_in_expiry_example :
  let E := Demo.serving Demo.weather in
  store (Server.fetchAndStoreForecast E "Singapore" Demo.empty).2
    !! "forecast:singapore" = Some (Demo.stringify Demo.weather, 3600) /\
  store (Snapshot.fetchAndStoreForecast E "Singapore" Demo.empty).2
    !! "forecast:singapore" = Some (Demo.stringify Demo.weather, 21600).
Proof. split; reflexivity. Qed.

(** ** The stock quotes of the snapshot *)

Lemma fetchAndStoreStock_run E symbol w st b first :
  upstream E (calls w) (Snapshot.stockUrl E symbol) = Http st b ->
  ok (mkResponse st b) = true ->
  index0 (match JSON_parse E b with
          | Return j => j
          | Throw _ => JStr b
          end) = Return first ->
  let lastPrice := or_null (optional_close first) in
  Snapshot.fetchAndStoreStock E symbol w =
    (Return lastPrice,
     mkWorld (<[Snapshot.redisStockKey symbol :=
                  (JSON_stringify E lastPrice, 10800)]> (store w))
             (calls w ++ [Snapshot.stockUrl E symbol])
             (console w ++ [(Log, "Stored stock in Redis for: " +:+ symbol)])).
Proof.
  intros Hup Hok Hfirst.
  unfold Snapshot.fetchAndStoreStock, axios_get_data. unfold_async.
  change (axios_url _ _) with (Snapshot.stockUrl E symbol).
  rewrite Hup. simpl. rewrite Hok. rewrite Hfirst. reflexivity.
Qed.

(** C2 (fails on the code): the quote is stored under [stock:<SYMBOL>], but
    with the expiry the code writes, [3 * 60 * 60] seconds, which is not the
    two hours of the comments above it. *)
Theorem fetchAndStoreStock_expiry_three_hours :
  let r := Snapshot.fetchAndStoreStock (Demo.serving Demo.series) "AAPL"
             Demo.empty in
  r.1 = Return Demo.price /\
  store r.2 !! "stock:AAPL" = Some ("172.35", 3 * 60 * 60) /\
  3 * 60 * 60 <> 7200.
Proof. split; [|split]; [reflexivity | reflexivity | discriminate]. Qed.

Lemma most_recent_elem series entry :
  most_recent series = Some entry -> entry ∈ series.
Proof.
  revert entry. induction series as [|e rest IH]; intros entry; simpl; [done|].
  destruct (most_recent rest) as [later|].
  - destruct (String.ltb _ _); intros [= <-];
      [right; now apply IH | left].
  - intros [= <-]. left.
Qed.

Lemma leb_not_ltb s t : String.leb s t = true -> String.ltb t s = false.
Proof.
  unfold String.leb, String.ltb. rewrite (String.compare_antisym s t).
  destruct (String.compare t s); simpl; congruence.
Qed.

Lemma most_recent_newest_first series :
  newest_first series = true -> most_recent series = head series.
Proof.
  destruct series as [|entry rest]; simpl; [done|].
  intros Hall. destruct (most_recent rest) as [later|] eqn:Hlater; [|done].
  apply most_recent_elem in Hlater.
  rewrite forallb_forall in Hall.
  rewrite (leb_not_ltb _ _ (Hall later (proj1 (list_elem_of_In _ _) Hlater))).
  done.
Qed.

(** C9 (as the code has it): when the price request succeeds with a series,
    the fetcher returns the closing price of the first entry of the reply,
    whatever the dates of the entries, and [null] when the series is empty;
    that value is what it stores under the stock key and what it returns.
    The first entry is the most recent one whenever the reply lists the
    latest entry first, as a reply that holds one entry does. *)
Theorem fetchAndStoreStock_first_close E symbol w st b series :
  upstream E (calls w) (Snapshot.stockUrl E symbol) = Http st b ->
  ok (mkResponse st b) = true ->
  JSON_parse E b = Return (JArr series) ->
  let price := from_option closing_price JNull (head series) in
  let r := Snapshot.fetchAndStoreStock E symbol w in
  r.1 = Return price /\
  fst <$> store r.2 !! Snapshot.redisStockKey symbol
    = Some (JSON_stringify E price) /\
  (series = [] -> r.1 = Return JNull) /\
  (newest_first series = true -> head series = most_recent series).
Proof.
  intros Hup Hok Hparse.
  rewrite (fetchAndStoreStock_run E symbol w st b (head series) Hup Hok)
    by now rewrite Hparse.
  simpl. rewrite lookup_insert_eq. simpl.
  assert (or_null (optional_close (head series))
          = from_option closing_price JNull (head series)) as ->.
  { now destruct series as [|[] ?]. }
  split; [done|]. split; [done|]. split; [now intros ->|].
  intros Hnewest. now rewrite (most_recent_newest_first _ Hnewest).
Qed.

Lemma fetchAndStoreStock_first_close_witness :
  (let r := Snapshot.fetchAndStoreStock (Demo.serving Demo.series) "AAPL"
              Demo.empty in
   r.1 = Return Demo.price /\
   fst <$> store r.2 !! "stock:AAPL" = Some "172.35" /\
   (Demo.entries = [] -> r.1 = Return JNull) /\
   (newest_first Demo.entries = true ->
    head Demo.entries = most_recent Demo.entries)) /\
  (let r := Snapshot.fetchAndStoreStock (Demo.serving (JArr [])) "AAPL"
              Demo.empty in
   r.1 = Return JNull /\
   fst <$> store r.2 !! "stock:AAPL" = Some "null" /\
   (@nil json = [] -> r.1 = Return JNull) /\
   (newest_first [] = true -> head [] = most_recent [])).
Proof.
  split.
  - apply (fetchAndStoreStock_first_close (Demo.serving Demo.series) "AAPL"
             Demo.empty 200 (Demo.stringify Demo.series) Demo.entries);
      reflexivity.
  - apply (fetchAndStoreStock_first_close (Demo.serving (JArr [])) "AAPL"
             Demo.empty 200 (Demo.stringify (JArr [])) []);
      reflexivity.
Defined.

(** C9 (as stated, fails on the code): the fetcher does not look at the
    dates.  On a successful reply that lists the oldest entry first it
    returns and stores the close of the oldest entry, 170.1, while the
    close of the most recent entry is 172.35. *)
Lemma fetchAndStoreStock_oldest_first :
  let r := Snapshot.fetchAndStoreStock Ascending.runtime "AAPL" Demo.empty in
  upstream Ascending.runtime [] (Snapshot.stockUrl Ascending.runtime "AAPL")
    = Http 200 (Demo.stringify Ascending.series) /\
  JSON_parse Ascending.runtime (Demo.stringify Ascending.series)
    = Return (JArr Ascending.entries) /\
  most_recent Ascending.entries = last Ascending.entries /\
  from_option closing_price JNull (most_recent Ascending.entries)
    = Demo.price /\
  r.1 = Return Demo.older_price /\
  store r.2 !! "stock:AAPL" = Some ("170.1", 10800) /\
  r.1 <> Return (from_option closing_price JNull
                   (most_recent Ascending.entries)).
Proof.
  repeat split; try reflexivity. vm_compute. discriminate.
Qed.

Lemma Promise_all_rejects {A} (tasks : list (Async A)) w :
  existsb rejected (outcomes tasks w) = true ->
  exists e, (Promise_all tasks w).1 = Throw e.
Proof.
  revert w. induction tasks as [|t rest IH]; intros w; simpl; [done|].
  destruct (t w) as [o w1]; simpl.
  destruct (Promise_all rest w1) as [os w2] eqn:Hrest.
  destruct o as [a|e]; simpl; [|eauto].
  intros Hex. destruct (IH w1 Hex) as [e He].
  rewrite Hrest in He. simpl in He. subst os. eauto.
Qed.

Lemma Promise_all_resolves {A} (tasks : list (Async A)) w :
  existsb rejected (outcomes tasks w) = false ->
  exists results, (Promise_all tasks w).1 = Return results /\
                  map Return results = outcomes tasks w.
Proof.
  revert w. induction tasks as [|t rest IH]; intros w; simpl; [by exists []|].
  destruct (t w) as [o w1]; simpl.
  destruct (Promise_all rest w1) as [os w2] eqn:Hrest.
  destruct o as [a|e]; simpl; [|done].
  intros Hex. destruct (IH w1 Hex) as (results & Hres & Hmap).
  rewrite Hrest in Hres. simpl in Hres. subst os.
  exists (a :: results). simpl. now rewrite Hmap.
Qed.

(** C10: [/api/stocks] is all or nothing.  When the resolution of any of the
    five symbols fails, the reply is the 500 error object and carries no
    price, whatever the other four resolutions gave. *)
Theorem stocksHandler_all_or_nothing E w :
  existsb rejected (outcomes (map (Snapshot.stockTask E) Snapshot.SYMBOLS) w)
    = true ->
  (Snapshot.stocksHandler E w).1 =
    Return (res_status_json 500
              (JObj [("error", JStr "ERROR: Failed to fetch stocks")])).
Proof.
  intros Hex. apply Promise_all_rejects in Hex as [e He].
  unfold Snapshot.stocksHandler. unfold_async.
  destruct (Promise_all _ w) as [o w']. simpl in He. now subst o.
Qed.

Lemma stocksHandler_all_or_nothing_witness :
  outcomes (map (Snapshot.stockTask (Demo.quotes_except ["NVDA"]))
                Snapshot.SYMBOLS) Demo.empty
    = [Return ("AAPL", Demo.price); Return ("TSLA", Demo.price);
       Return ("MSFT", Demo.price); Return ("GOOGL", Demo.price);
       Throw "Request failed with status code 404"] /\
  (Snapshot.stocksHandler (Demo.quotes_except ["NVDA"]) Demo.empty).1 =
    Return (res_status_json 500
              (JObj [("error", JStr "ERROR: Failed to fetch stocks")])).
Proof.
  split; [reflexivity|].
  apply (stocksHandler_all_or_nothing (Demo.quotes_except ["NVDA"]) Demo.empty).
  reflexivity.
Defined.

(** When no resolution fails the reply is a 200 with the prices object. *)
Lemma stocksHandler_all_resolved E w :
  existsb rejected (outcomes (map (Snapshot.stockTask E) Snapshot.SYMBOLS) w)
    = false ->
  exists prices, (Snapshot.stocksHandler E w).1 = Return (res_json (JObj prices)).
Proof.
  intros Hex. apply Promise_all_resolves in Hex as (results & Hres & _).
  unfold Snapshot.stocksHandler. unfold_async.
  destruct (Promise_all _ w) as [o w']. simpl in Hres. subst o. eauto.
Qed.

Lemma stocksHandler_all_resolved_example :
  (Snapshot.stocksHandler (Demo.quotes_except []) Demo.empty).1 =
    Return (res_json (JObj [("AAPL", Demo.price); ("TSLA", Demo.price);
                            ("MSFT", Demo.price); ("GOOGL", Demo.price);
                            ("NVDA", Demo.price)])).
Proof. reflexivity. Qed.

(** The quote of a symbol is fetched once and then served from the store. *)
Lemma stockTask_second_call_example :
  let E := Demo.serving Demo.series in
  let first := Snapshot.stockTask E "AAPL" Demo.empty in
  let second := Snapshot.stockTask E "AAPL" first.2 in
  first.1 = Return ("AAPL", Demo.price) /\
  second.1 = Return ("AAPL", Demo.price) /\
  calls first.2 = [Snapshot.stockUrl E "AAPL"] /\
  calls second.2 = calls first.2.
Proof. repeat split; vm_compute; reflexivity. Qed.

(** ** The preload sweep *)

Lemma for_of_ext {A} (xs : list A) (f g : A -> Async unit) w :
  (forall x w', f x w' = g x w') -> for_of xs f w = for_of xs g w.
Proof.
  intros Hfg. revert w. induction xs as [|x rest IH]; intros w; simpl; [done|].
  unfold bind. rewrite Hfg. destruct (g x w) as [[[]|e] w1]; [apply IH|done].
Qed.

Lemma for_of_app {A} (xs ys : list A) (f : A -> Async unit) w :
  for_of (xs ++ ys) f w = (await _ <- for_of xs f; for_of ys f) w.
Proof.
  revert w. induction xs as [|x rest IH]; intros w; simpl; [done|].
  unfold bind in *. destruct (f x w) as [[[]|e] w1]; [apply IH|done].
Qed.

Lemma for_of_map {A B} (g : A -> B) (xs : list A) (f : B -> Async unit) w :
  for_of (map g xs) f w = for_of xs (fun x => f (g x)) w.
Proof.
  revert w. induction xs as [|x rest IH]; intros w; simpl; [done|].
  unfold bind. destruct (f (g x) w) as [[[]|e] w1]; [apply IH|done].
Qed.

Lemma for_of_flat_map {A B} (g : A -> list B) (xs : list A)
  (f : B -> Async unit) w :
  for_of (flat_map g xs) f w = for_of xs (fun x => for_of (g x) f) w.
Proof.
  revert w. induction xs as [|x rest IH]; intros w; simpl; [done|].
  rewrite for_of_app. unfold bind.
  destruct (for_of (g x) f w) as [[[]|e] w1]; [apply IH|done].
Qed.

Lemma bind_ext {A B} (m : Async A) (k k' : A -> Async B) w :
  (forall a w', k a w' = k' a w') -> bind m k w = bind m k' w.
Proof. intros Hk. unfold bind. destruct (m w) as [[a|e] w1]; [apply Hk|done]. Qed.

Lemma bind_ext_l {A B} (m m' : Async A) (k : A -> Async B) w :
  m w = m' w -> bind m k w = bind m' k w.
Proof. intros Hm. unfold bind. now rewrite Hm. Qed.

(** The nested loops of [preloadAllNews] are one loop over the key space. *)
Lemma preloadAllNews_loop E w :
  Server.preloadAllNews E w =
    (await _ <- console_log "🚀 Preloading news data...";
     await _ <- for_of keyspace (sweepBody E);
     console_log "✅ Preloading complete.") w.
Proof.
  unfold Server.preloadAllNews. apply bind_ext. intros _ w1.
  apply bind_ext_l. unfold keyspace. rewrite for_of_flat_map.
  apply for_of_ext. intros country w2. now rewrite for_of_map.
Qed.

Lemma sweepBody_run E ck w :
  let o := fetched E (calls w) (Server.newsUrl E ck.1 ck.2)
             (Server.notOkMessage (Server.GetNews ck.1 ck.2)) in
  sweepBody E ck w =
    (Return tt,
     mkWorld (match o with
              | Return data =>
                  <[sweepKey ck := (JSON_stringify E data, 21600)]> (store w)
              | Throw _ => store w
              end)
             (calls w ++ [Server.newsUrl E ck.1 ck.2])
             (console w ++ [sweepLine ck o])).
Proof.
  unfold sweepBody, Server.fetchAndStoreNews, fetched, sweepKey, sweepLine.
  unfold_async. simpl.
  destruct (upstream E _ _) as [e|st b]; simpl; [done|].
  destruct (ok (mkResponse st b)); simpl; [|done].
  now destruct (JSON_parse E b).
Qed.

Lemma sweepFetched_cons E history ck0 keys i ck :
  sweepFetched E history (ck0 :: keys) (S i) ck =
  sweepFetched E (history ++ [Server.newsUrl E ck0.1 ck0.2]) keys i ck.
Proof. unfold sweepFetched. simpl. now rewrite <- app_assoc. Qed.

Lemma sweepFetched_head E history ck0 keys :
  sweepFetched E history (ck0 :: keys) 0 ck0 =
  fetched E history (Server.newsUrl E ck0.1 ck0.2)
    (Server.notOkMessage (Server.GetNews ck0.1 ck0.2)).
Proof. unfold sweepFetched. simpl. now rewrite app_nil_r. Qed.

Lemma sweepLines_cons E history ck0 keys :
  sweepLines E history (ck0 :: keys) =
  sweepLine ck0 (fetched E history (Server.newsUrl E ck0.1 ck0.2)
                   (Server.notOkMessage (Server.GetNews ck0.1 ck0.2)))
  :: sweepLines E (history ++ [Server.newsUrl E ck0.1 ck0.2]) keys.
Proof.
  unfold sweepLines. rewrite imap_cons, sweepFetched_head. f_equal.
  apply imap_ext. intros i ck _. simpl. now rewrite sweepFetched_cons.
Qed.

(** One pass of the loop over any list of combinations: it never throws,
    requests every combination in order, logs one line per combination,
    leaves the other keys alone and, the keys being distinct, leaves under
    each key what its own fetch gave. *)
Lemma sweep_loop E keys : forall w,
  let r := for_of keys (sweepBody E) w in
  r.1 = Return tt /\
  calls r.2 = calls w ++ sweepUrls E keys /\
  console r.2 = console w ++ sweepLines E (calls w) keys /\
  (forall key, key ∉ map sweepKey keys -> store r.2 !! key = store w !! key) /\
  (NoDup (map sweepKey keys) ->
   forall i ck, keys !! i = Some ck ->
     store r.2 !! sweepKey ck =
       match sweepFetched E (calls w) keys i ck with
       | Return data => Some (JSON_stringify E data, 21600)
       | Throw _ => store w !! sweepKey ck
       end).
Proof.
  induction keys as [|ck0 keys IH]; intros w.
  { simpl. rewrite !app_nil_r. repeat split; done. }
  simpl. unfold bind. rewrite sweepBody_run.
  set (o := fetched E (calls w) _ _).
  set (w1 := mkWorld _ _ _).
  destruct (IH w1) as (Hret & Hcalls & Hconsole & Hother & Hown).
  assert (Hstep : forall key, key <> sweepKey ck0 ->
            store w1 !! key = store w !! key).
  { intros key Hne. subst w1. simpl. destruct o; [|done].
    now rewrite lookup_insert_ne. }
  split; [exact Hret|]. split; [|split; [|split]].
  - rewrite Hcalls. subst w1. simpl. now rewrite <- app_assoc.
  - rewrite Hconsole, sweepLines_cons. subst w1 o. simpl.
    now rewrite <- app_assoc.
  - intros key Hkey. apply not_elem_of_cons in Hkey as [Hne Hkey].
    rewrite Hother by done. now apply Hstep.
  - intros Hnodup i ck Hi. apply NoDup_cons in Hnodup as [Hfresh Hnodup].
    destruct i as [|i]; simpl in Hi.
    + injection Hi as <-. rewrite Hother by done.
      rewrite sweepFetched_head. fold o. subst w1. simpl.
      destruct o; [|done]. now rewrite lookup_insert_eq.
    + rewrite (Hown Hnodup i ck Hi), sweepFetched_cons.
      subst w1. simpl. destruct (sweepFetched _ _ _ _ _); [done|].
      apply Hstep. intros Heq. apply Hfresh. rewrite <- Heq.
      apply list_elem_of_fmap. exists ck. split; [done|].
      eapply list_elem_of_lookup_2, Hi.
Qed.

Lemma keyspace_keys_distinct : NoDup (map sweepKey keyspace).
Proof. apply (bool_decide_unpack _). vm_compute. reflexivity. Qed.

Lemma preloadAllNews_run E w :
  let r := Server.preloadAllNews E w in
  r.1 = Return tt /\
  calls r.2 = calls w ++ sweepUrls E keyspace /\
  console r.2 = console w ++ [(Log, "🚀 Preloading news data...")]
                  ++ sweepLines E (calls w) keyspace
                  ++ [(Log, "✅ Preloading complete.")] /\
  (forall i ck, keyspace !! i = Some ck ->
     store r.2 !! sweepKey ck =
       match sweepFetched E (calls w) keyspace i ck with
       | Return data => Some (JSON_stringify E data, 21600)
       | Throw _ => store w !! sweepKey ck
       end).
Proof.
  cbv zeta. rewrite preloadAllNews_loop.
  unfold bind, console_log.
  set (w1 := mkWorld _ _ _).
  destruct (sweep_loop E keyspace w1) as (Hret & Hcalls & Hconsole & _ & Hown).
  destruct (for_of keyspace (sweepBody E) w1) as [o w2].
  subst w1. cbn [fst snd store calls console] in Hret, Hcalls, Hconsole, Hown.
  subst o. unfold console_log. cbn [fst snd store calls console].
  split; [done|]. split; [done|]. split.
  - rewrite Hconsole. now rewrite <- !app_assoc.
  - intros i ck Hi. exact (Hown keyspace_keys_distinct i ck Hi).
Qed.

(** C3: whatever the upstream answers, [preloadAllNews] returns without
    throwing after requesting the 15 combinations in the order of the two
    loops, countries outside and categories inside, without consulting the
    store first; each combination whose fetch succeeds is stored afresh with
    the six-hour expiry, and one whose fetch fails keeps what the store had
    and does not stop the ones after it. *)
Theorem preloadAllNews_sweeps_every_combination E w :
  let r := Server.preloadAllNews E w in
  keyspace =
    [("us", "general"); ("us", "nation"); ("us", "business");
     ("us", "technology"); ("us", "entertainment");
     ("sg", "general"); ("sg", "nation"); ("sg", "business");
     ("sg", "technology"); ("sg", "entertainment");
     ("in", "general"); ("in", "nation"); ("in", "business");
     ("in", "technology"); ("in", "entertainment")] /\
  r.1 = Return tt /\
  calls r.2 = calls w ++ sweepUrls E keyspace /\
  (forall i ck, keyspace !! i = Some ck ->
     store r.2 !! Server.redisKey ck.1 ck.2 =
       match sweepFetched E (calls w) keyspace i ck with
       | Return data => Some (JSON_stringify E data, 21600)
       | Throw _ => store w !! Server.redisKey ck.1 ck.2
       end).
Proof.
  destruct (preloadAllNews_run E w) as (Hret & Hcalls & _ & Hstore).
  split; [reflexivity|]. split; [exact Hret|]. split; [exact Hcalls|].
  exact Hstore.
Qed.

Lemma preloadAllNews_sweeps_every_combination_witness :
  let E := Demo.flaky [("sg", "nation"); ("in", "technology")] in
  let r := Server.preloadAllNews E Demo.empty in
  r.1 = Return tt /\
  length (calls r.2) = 15%nat /\
  store r.2 !! "gnews:us:general"
    = Some (Demo.stringify Demo.headlines, 21600) /\
  store r.2 !! "gnews:sg:nation" = None /\
  store r.2 !! "gnews:in:entertainment"
    = Some (Demo.stringify Demo.headlines, 21600).
Proof.
  destruct (preloadAllNews_sweeps_every_combination
              (Demo.flaky [("sg", "nation"); ("in", "technology")]) Demo.empty)
    as (_ & Hret & Hcalls & Hstore).
  split; [exact Hret|]. split; [now rewrite Hcalls|].
  split; [exact (Hstore 0%nat ("us", "general") eq_refl)|].
  split; [exact (Hstore 6%nat ("sg", "nation") eq_refl)|].
  exact (Hstore 14%nat ("in", "entertainment") eq_refl).
Defined.

Lemma sweep_lines_count (g : nat -> string * string -> Outcome json) keys :
  length (List.filter is_error_line
            (imap (fun i ck => sweepLine ck (g i ck)) keys)) =
  length (omap id (imap (fun i ck => match g i ck with
                                     | Return _ => None
                                     | Throw _ => Some ck
                                     end) keys)) /\
  (length (List.filter (fun l => negb (is_error_line l))
             (imap (fun i ck => sweepLine ck (g i ck)) keys)) +
   length (List.filter is_error_line
             (imap (fun i ck => sweepLine ck (g i ck)) keys)) =
   length keys)%nat.
Proof.
  revert g. induction keys as [|ck keys IH]; intros g; [done|].
  rewrite !imap_cons. destruct (IH (g ∘ S)) as [IH1 IH2].
  unfold compose in *. cbv beta in *.
  simpl. destruct (g 0%nat ck); simpl.
  - split; [exact IH1 | now rewrite IH2].
  - split; [f_equal; exact IH1 | rewrite Nat.add_succ_r; now rewrite IH2].
Qed.

(** C6 (as the code has it): [preloadAllNews] returns nothing and [/backup]
    always answers the same text; the outcome of the sweep is on the
    console only.  Between the opening and the closing line there is one
    line per combination, in sweep order: a [Stored] line on the log stream
    when its fetch succeeded, a [Failed] line with the error message on the
    error stream when it failed.  So the [Failed] lines are as many as the
    failing combinations and the [Stored] lines are the rest of the 15. *)
Theorem preloadAllNews_logs_each_outcome E w :
  let r := Server.preloadAllNews E w in
  let lines := sweepLines E (calls w) keyspace in
  let failures := sweepFailures E (calls w) keyspace in
  r.1 = Return tt /\
  (Server.backupHandler E w).1
    = Return (res_send "All country-category data backed up!") /\
  console r.2 = console w ++ [(Log, "🚀 Preloading news data...")]
                  ++ lines ++ [(Log, "✅ Preloading complete.")] /\
  length lines = 15%nat /\
  length (List.filter is_error_line lines) = length failures /\
  length (List.filter (fun l => negb (is_error_line l)) lines)
    = (15 - length failures)%nat.
Proof.
  destruct (preloadAllNews_run E w) as (Hret & _ & Hconsole & _).
  destruct (sweep_lines_count (sweepFetched E (calls w) keyspace) keyspace)
    as [Herr Hsum].
  fold (sweepLines E (calls w) keyspace) in Herr, Hsum.
  fold (sweepFailures E (calls w) keyspace) in Herr.
  cbv zeta. split; [exact Hret|]. split.
  - unfold Server.backupHandler, bind.
    destruct (Server.preloadAllNews E w) as [o w']. simpl in Hret.
    now subst o.
  - split; [exact Hconsole|]. split; [apply length_imap|].
    split; [exact Herr|]. change (length keyspace) with 15%nat in Hsum. lia.
Qed.

(** C6 (as stated, fails on the code): with two of the 15 fetches failing,
    [preloadAllNews] returns the same empty value, and [/backup] the same
    text, as when none fails.  So no reading of the returned value gives the
    combinations that failed: there is no report. *)
Lemma preloadAllNews_returns_no_report :
  let two_fail := Demo.flaky [("sg", "nation"); ("in", "technology")] in
  let none_fails := Demo.flaky [] in
  (sweepFailures two_fail [] keyspace = [("sg", "nation"); ("in", "technology")] /\
   sweepFailures none_fails [] keyspace = [] /\
   (Server.preloadAllNews two_fail Demo.empty).1 = Return tt /\
   (Server.preloadAllNews none_fails Demo.empty).1 = Return tt /\
   (Server.backupHandler two_fail Demo.empty).1
     = Return (res_send "All country-category data backed up!") /\
   (Server.backupHandler none_fails Demo.empty).1
     = Return (res_send "All country-category data backed up!")) /\
  ~ (exists report : Outcome unit -> list (string * string),
       forall E w,
         report (Server.preloadAllNews E w).1
         = sweepFailures E (calls w) keyspace).
Proof.
  assert (Hfacts :
    sweepFailures (Demo.flaky [("sg", "nation"); ("in", "technology")]) []
      keyspace = [("sg", "nation"); ("in", "technology")] /\
    sweepFailures (Demo.flaky []) [] keyspace = [] /\
    (Server.preloadAllNews (Demo.flaky [("sg", "nation"); ("in", "technology")])
       Demo.empty).1 = Return tt /\
    (Server.preloadAllNews (Demo.flaky []) Demo.empty).1 = Return tt)
    by (repeat split; vm_compute; reflexivity).
  destruct Hfacts as (Hf2 & Hf0 & Hr2 & Hr0).
  split.
  - repeat split; try assumption; vm_compute; reflexivity.
  - intros [report Hreport].
    pose proof (Hreport (Demo.flaky [("sg", "nation"); ("in", "technology")])
                  Demo.empty) as H2.
    pose proof (Hreport (Demo.flaky []) Demo.empty) as H0.
    rewrite Hr2 in H2. rewrite Hr0 in H0.
    change (calls Demo.empty) with (@nil string) in H2, H0.
    rewrite Hf2 in H2. rewrite Hf0 in H0. congruence.
Qed.

(** The two failures of that run on the console, among 13 [Stored] lines. *)
Lemma preloadAllNews_logs_each_outcome_example :
  let E := Demo.flaky [("sg", "nation"); ("in", "technology")] in
  let lines := sweepLines E [] keyspace in
  console (Server.preloadAllNews E Demo.empty).2
    = [(Log, "🚀 Preloading news data...")] ++ lines
      ++ [(Log, "✅ Preloading complete.")] /\
  List.filter is_error_line lines
    = [(Error, "❌ Failed: sg-nation Failed for sg-nation");
       (Error, "❌ Failed: in-technology socket hang up")] /\
  length (List.filter (fun l => negb (is_error_line l)) lines) = 13%nat.
Proof. repeat split; vm_compute; reflexivity. Qed.

(** * Further properties of the cache layer *)

(** ** Hits, writes and what a route leaves alone *)

Arguments Curnews.searchUrl : simpl never.
Arguments Curnews.searchUrlEn : simpl never.

(** X1: a stored value that is not empty and parses is served as it is: the
    upstream is not requested and the store is not written, whatever put the
    value there. *)
Theorem cache_hit_serves_stored_value E req w cached EX value :
  store w !! Server.cacheKey req = Some (cached, EX) ->
  cached <> "" ->
  JSON_parse E cached = Return value ->
  let r := Server.app_get E req w in
  r.1 = Return (res_json value) /\
  calls r.2 = calls w /\
  store r.2 = store w.
Proof.
  intros Hget Hne Hparse.
  destruct cached as [|c s]; [done|].
  destruct req; unfold_routes; unfold_async; simpl;
    rewrite Hget; simpl; rewrite Hparse; done.
Qed.

Lemma cache_hit_serves_stored_value_witness :
  let E := Demo.unavailable in
  let w := mkWorld {[ "forecast:oslo" := (Demo.stringify Demo.weather, 5) ]}
             [] [] in
  let r := Server.app_get E (Server.GetForecast "Oslo") w in
  r.1 = Return (res_json Demo.weather) /\
  calls r.2 = calls w /\
  store r.2 = store w.
Proof.
  apply (cache_hit_serves_stored_value Demo.unavailable
           (Server.GetForecast "Oslo")
           (mkWorld {[ "forecast:oslo" := (Demo.stringify Demo.weather, 5) ]}
              [] [])
           (Demo.stringify Demo.weather) 5 Demo.weather);
    [reflexivity | discriminate | reflexivity].
Defined.

(** X2: on a miss with a successful fetch the route writes exactly one
    entry, the printed payload under its own key, with the expiry of its
    domain: one hour for weather and forecast, six hours for news. *)
Theorem miss_writes_one_entry E req w data :
  truthy (fst <$> store w !! Server.cacheKey req) = None ->
  fetched E (calls w) (Server.upstreamUrl E req) (Server.notOkMessage req)
    = Return data ->
  store (Server.app_get E req w).2 =
    <[Server.cacheKey req := (JSON_stringify E data, routeExpiry req)]> (store w) /\
  routeExpiry req = match req with
                    | Server.GetNews _ _ => 21600
                    | _ => 3600
                    end.
Proof.
  intros Hmiss Hfetch. unfold fetched in Hfetch.
  destruct req; unfold_routes; unfold_async; simpl;
    rewrite Hmiss;
    (destruct (upstream E _ _) as [e|st b]; [discriminate Hfetch|]);
    (destruct (ok (mkResponse st b)); [|discriminate Hfetch]);
    simpl; rewrite Hfetch; done.
Qed.

Lemma miss_writes_one_entry_witness :
  store (Server.app_get (Demo.serving Demo.headlines)
           (Server.GetNews "sg" "business") Demo.empty).2 =
    {[ "gnews:sg:business" := (Demo.stringify Demo.headlines, 21600) ]}.
Proof.
  destruct (miss_writes_one_entry (Demo.serving Demo.headlines)
              (Server.GetNews "sg" "business") Demo.empty Demo.headlines)
    as [Hstore _]; [reflexivity | reflexivity |].
  rewrite Hstore. reflexivity.
Defined.

Lemma fetchAndStore_frame E req w key :
  key <> Server.cacheKey req ->
  store (match req with
         | Server.GetWeather city => Server.fetchAndStoreWeather E city
         | Server.GetForecast city => Server.fetchAndStoreForecast E city
         | Server.GetNews country category =>
             Server.fetchAndStoreNews E country category
         end w).2 !! key = store w !! key.
Proof.
  intros Hne.
  destruct req; unfold_routes; unfold_async; simpl;
    (destruct (upstream E _ _) as [e|st b]; simpl; [done|]);
    (destruct (ok (mkResponse st b)); simpl; [|done]);
    (destruct (JSON_parse E b); simpl; [|done]);
    now rewrite lookup_insert_ne.
Qed.

(** X3: a route never touches a key other than its own, whatever the store
    holds and whatever the upstream answers. *)
Theorem route_leaves_other_keys_alone E req w key :
  key <> Server.cacheKey req ->
  store (Server.app_get E req w).2 !! key = store w !! key.
Proof.
  intros Hne. pose proof (fetchAndStore_frame E req w key Hne) as Hframe.
  destruct req; unfold_routes; unfold_async; simpl in *;
    (destruct (truthy _) as [cached|]; simpl;
     [ now destruct (JSON_parse E cached) |]);
    (destruct (upstream E _ _) as [e|st b]; simpl in *; [done|]);
    (destruct (ok (mkResponse st b)); simpl in *; [|done]);
    (destruct (JSON_parse E b); simpl in *; done).
Qed.

Lemma route_leaves_other_keys_alone_witness :
  let w := mkWorld {[ "forecast:oslo" := ("{}", 5) ]} [] [] in
  store (Server.app_get (Demo.serving Demo.weather)
           (Server.GetWeather "Oslo") w).2 !! "forecast:oslo"
  = Some ("{}", 5).
Proof.
  cbv zeta.
  rewrite (route_leaves_other_keys_alone (Demo.serving Demo.weather)
             (Server.GetWeather "Oslo")
             (mkWorld {[ "forecast:oslo" := ("{}", 5) ]} [] [])
             "forecast:oslo") by discriminate.
  reflexivity.
Defined.

(** X4: a cached route always answers, with 200 or with 500: no error
    escapes its handler. *)
Theorem route_always_answers E req w :
  exists sent,
    (Server.app_get E req w).1 = Return sent /\
    (code sent = 200 \/ code sent = 500).
Proof.
  destruct req; unfold_routes; unfold_async; simpl;
    (destruct (truthy _) as [cached|]; simpl;
     [ destruct (JSON_parse E cached); simpl; eauto |]);
    (destruct (upstream E _ _) as [e|st b]; simpl; [eauto|]);
    (destruct (ok (mkResponse st b)); simpl; [|eauto]);
    (destruct (JSON_parse E b); simpl; eauto).
Qed.

(** ** Which requests share a key *)

Lemma append_inj_prefix p a b : p +:+ a = p +:+ b -> a = b.
Proof.
  induction p as [|c p IH]; unfold String.append; fold String.append;
    [done|]. intros [= H]. now apply IH.
Qed.

Lemma append_head c p a : String c p +:+ a = String c (p +:+ a).
Proof. reflexivity. Qed.

(** X5: the key families of the four domains are disjoint: a weather, a
    forecast, a news and a stock entry never share a key, whatever the
    parameters. *)
Theorem domains_never_share_a_key city city' country category symbol :
  Server.rediswea city <> Server.redisForecastKey city' /\
  Server.rediswea city <> Server.redisKey country category /\
  Server.rediswea city <> Snapshot.redisStockKey symbol /\
  Server.redisForecastKey city <> Server.redisKey country category /\
  Server.redisForecastKey city <> Snapshot.redisStockKey symbol /\
  Server.redisKey country category <> Snapshot.redisStockKey symbol.
Proof.
  unfold Server.rediswea, Server.redisForecastKey, Server.redisKey,
    Snapshot.redisStockKey.
  repeat split; rewrite !append_head; discriminate.
Qed.

Lemma N_of_ascii_inj c d : N_of_ascii c = N_of_ascii d -> c = d.
Proof.
  intros H. rewrite <- (ascii_N_embedding c), <- (ascii_N_embedding d).
  now rewrite H.
Qed.

Lemma char_lower_kernel c d :
  char_toLowerCase c = char_toLowerCase d -> char_case_variant c d.
Proof.
  unfold char_toLowerCase. intros H.
  pose proof (N_ascii_bounded c) as Hc. pose proof (N_ascii_bounded d) as Hd.
  apply (f_equal N_of_ascii) in H.
  destruct (is_upper c) eqn:Uc, (is_upper d) eqn:Ud;
    unfold is_upper in Uc, Ud; cbv zeta in Uc, Ud;
    rewrite ?andb_true_iff, ?andb_false_iff, ?N.leb_le, ?N.leb_gt in Uc;
    rewrite ?andb_true_iff, ?andb_false_iff, ?N.leb_le, ?N.leb_gt in Ud;
    try rewrite N_ascii_embedding in H by lia;
    try rewrite N_ascii_embedding in H by lia.
  - assert (c = d) as -> by (apply N_of_ascii_inj; lia). apply ccv_same.
  - assert (d = ascii_of_N (N_of_ascii c + 32)) as ->
      by (apply N_of_ascii_inj; rewrite N_ascii_embedding; lia).
    apply ccv_small. unfold is_upper. cbv zeta.
    rewrite andb_true_iff, !N.leb_le. lia.
  - assert (c = ascii_of_N (N_of_ascii d + 32)) as Hcd
      by (apply N_of_ascii_inj; rewrite N_ascii_embedding; lia).
    assert (d = ascii_of_N (N_of_ascii c - 32)) as ->
      by (apply N_of_ascii_inj; rewrite N_ascii_embedding; lia).
    apply ccv_capital. unfold is_lower. cbv zeta.
    rewrite andb_true_iff, !N.leb_le. lia.
  - assert (c = d) as -> by (now apply N_of_ascii_inj). apply ccv_same.
Qed.

Lemma char_upper_kernel c d :
  char_toUpperCase c = char_toUpperCase d -> char_case_variant c d.
Proof.
  unfold char_toUpperCase. intros H.
  pose proof (N_ascii_bounded c) as Hc. pose proof (N_ascii_bounded d) as Hd.
  apply (f_equal N_of_ascii) in H.
  destruct (is_lower c) eqn:Lc, (is_lower d) eqn:Ld;
    unfold is_lower in Lc, Ld; cbv zeta in Lc, Ld;
    rewrite ?andb_true_iff, ?andb_false_iff, ?N.leb_le, ?N.leb_gt in Lc;
    rewrite ?andb_true_iff, ?andb_false_iff, ?N.leb_le, ?N.leb_gt in Ld;
    try rewrite N_ascii_embedding in H by lia;
    try rewrite N_ascii_embedding in H by lia.
  - assert (c = d) as -> by (apply N_of_ascii_inj; lia). apply ccv_same.
  - assert (d = ascii_of_N (N_of_ascii c - 32)) as ->
      by (apply N_of_ascii_inj; rewrite N_ascii_embedding; lia).
    apply ccv_capital. unfold is_lower. cbv zeta.
    rewrite andb_true_iff, !N.leb_le. lia.
  - assert (c = ascii_of_N (N_of_ascii d - 32)) as Hcd
      by (apply N_of_ascii_inj; rewrite N_ascii_embedding; lia).
    assert (d = ascii_of_N (N_of_ascii c + 32)) as ->
      by (apply N_of_ascii_inj; rewrite N_ascii_embedding; lia).
    apply ccv_small. unfold is_upper. cbv zeta.
    rewrite andb_true_iff, !N.leb_le. lia.
  - assert (c = d) as -> by (now apply N_of_ascii_inj). apply ccv_same.
Qed.

Lemma toLowerCase_kernel s t :
  toLowerCase s = toLowerCase t -> case_variant s t.
Proof.
  revert t. induction s as [|c s IH]; intros [|d t]; simpl; try done.
  - intros _. apply cv_nil.
  - intros [= Hc Hs]. apply cv_cons; [now apply char_lower_kernel | now apply IH].
Qed.

Lemma toUpperCase_kernel s t :
  toUpperCase s = toUpperCase t -> case_variant s t.
Proof.
  revert t. induction s as [|c s IH]; intros [|d t]; simpl; try done.
  - intros _. apply cv_nil.
  - intros [= Hc Hs]. apply cv_cons; [now apply char_upper_kernel | now apply IH].
Qed.

(** X6: for parameters made of ASCII characters, the weather, forecast and
    stock keys of two parameters coincide exactly when the parameters
    differ only in letter case: among such parameters the case
    normalisation merges nothing else. *)
Theorem normalised_keys_coincide_iff_case_variant s t :
  ascii_only s = true -> ascii_only t = true ->
  (Server.rediswea s = Server.rediswea t <-> case_variant s t) /\
  (Server.redisForecastKey s = Server.redisForecastKey t <-> case_variant s t) /\
  (Snapshot.redisStockKey s = Snapshot.redisStockKey t <-> case_variant s t).
Proof.
  intros _ _.
  unfold Server.rediswea, Server.redisForecastKey, Snapshot.redisStockKey.
  repeat split; intros H;
    try (apply append_inj_prefix in H);
    try (now apply toLowerCase_kernel);
    try (now apply toUpperCase_kernel);
    try (now rewrite (toLowerCase_case_variant s t H));
    now rewrite (toUpperCase_case_variant s t H).
Qed.

Lemma normalised_keys_coincide_iff_case_variant_witness :
  (Server.rediswea "Oslo" = Server.rediswea "OSLO"
   <-> case_variant "Oslo" "OSLO") /\
  (Server.redisForecastKey "Oslo" = Server.redisForecastKey "OSLO"
   <-> case_variant "Oslo" "OSLO") /\
  (Snapshot.redisStockKey "Oslo" = Snapshot.redisStockKey "OSLO"
   <-> case_variant "Oslo" "OSLO").
Proof.
  apply (normalised_keys_coincide_iff_case_variant "Oslo" "OSLO");
    reflexivity.
Defined.

Lemma append_assoc (a b c : string) : (a +:+ b) +:+ c = a +:+ b +:+ c.
Proof.
  induction a as [|x a IH]; unfold String.append; fold String.append;
    [done | now rewrite IH].
Qed.

(** X7: the news key does not separate its two parameters: a colon in the
    country or in the category can move across the separator, so two
    different requests can share one entry. *)
Theorem redisKey_colon_collision a b c :
  Server.redisKey (a +:+ ":" +:+ b) c = Server.redisKey a (b +:+ ":" +:+ c) /\
  Server.redisKey "us:sg" "general" = Server.redisKey "us" "sg:general".
Proof.
  split; [|reflexivity]. unfold Server.redisKey.
  now rewrite !append_assoc.
Qed.

Lemma colon_split c c' k k' :
  colon_free c = true -> colon_free c' = true ->
  c +:+ ":" +:+ k = c' +:+ ":" +:+ k' -> c = c' /\ k = k'.
Proof.
  revert c'. induction c as [|x c IH]; intros [|y c'];
    unfold String.append; fold String.append; simpl.
  - now intros _ _ [= ->].
  - intros _ Hy [= <- _]. done.
  - intros Hx _ [= -> _]. done.
  - intros Hx Hy [= -> H].
    apply andb_prop in Hx as [_ Hx]. apply andb_prop in Hy as [_ Hy].
    destruct (IH c' Hx Hy H) as [-> ->]. done.
Qed.

(** X8: among countries without a colon the news key is injective: two
    requests get the same key only when they name the same country and the
    same category. *)
Theorem redisKey_injective_without_colon c k c' k' :
  colon_free c = true -> colon_free c' = true ->
  Server.redisKey c k = Server.redisKey c' k' ->
  c = c' /\ k = k'.
Proof.
  intros Hc Hc' H. unfold Server.redisKey in H.
  apply append_inj_prefix in H. now apply colon_split.
Qed.

Lemma redisKey_injective_without_colon_witness :
  "us" = "us" /\ "general" = "general".
Proof.
  apply (redisKey_injective_without_colon "us" "general" "us" "general");
    reflexivity.
Defined.

(** ** The stock quotes *)

Lemma fetchAndStoreStock_cases E symbol w :
  let r := Snapshot.fetchAndStoreStock E symbol w in
  let reply := upstream E (calls w) (Snapshot.stockUrl E symbol) in
  calls r.2 = calls w ++ [Snapshot.stockUrl E symbol] /\
  if quoteRejected E reply
  then (exists e, r.1 = Throw e) /\ store r.2 = store w
  else exists price,
         r.1 = Return price /\
         store r.2 = <[Snapshot.redisStockKey symbol :=
                         (JSON_stringify E price, 10800)]> (store w).
Proof.
  unfold Snapshot.fetchAndStoreStock, axios_get_data, quoteRejected.
  change (axios_url _ _) with (Snapshot.stockUrl E symbol).
  unfold_async; simpl.
  destruct (upstream E (calls w) (Snapshot.stockUrl E symbol)) as [e|st b];
    simpl; [eauto|].
  destruct (ok (mkResponse st b)); simpl; [|eauto].
  destruct (JSON_parse E b) as [[| | | [|c s] | |]|e]; simpl; eauto;
    destruct b; simpl; eauto.
Qed.

(** X9: the quote fetcher fails exactly on a transport error, a status
    outside 2xx or a [null] body, and then writes nothing; on every other
    reply, be it an error object or a page that is not JSON, it stores a
    value under the stock key for three hours and returns it. *)
Theorem quote_fetch_fails_or_stores E symbol w :
  let r := Snapshot.fetchAndStoreStock E symbol w in
  let reply := upstream E (calls w) (Snapshot.stockUrl E symbol) in
  rejected r.1 = quoteRejected E reply /\
  (rejected r.1 = true -> store r.2 = store w) /\
  (rejected r.1 = false ->
   exists price,
     r.1 = Return price /\
     store r.2 = <[Snapshot.redisStockKey symbol :=
                     (JSON_stringify E price, 10800)]> (store w)).
Proof.
  cbv zeta. destruct (fetchAndStoreStock_cases E symbol w) as [_ H].
  destruct (quoteRejected E _).
  - destruct H as [[e ->] Hstore]. simpl. repeat split; [done|done].
  - destruct H as (price & -> & Hstore). simpl.
    repeat split; [done|]. intros _. eauto.
Qed.

Lemma quote_fetch_fails_or_stores_witness :
  let broken := Demo.runtime (fun _ _ => Http 200 "<html>maintenance</html>") in
  let r := Snapshot.fetchAndStoreStock broken "AAPL" Demo.empty in
  exists price,
    r.1 = Return price /\
    store r.2 = <[ "stock:AAPL" := (Demo.stringify price, 10800) ]> ∅.
Proof.
  destruct (quote_fetch_fails_or_stores
              (Demo.runtime (fun _ _ => Http 200 "<html>maintenance</html>"))
              "AAPL" Demo.empty) as (_ & _ & H).
  apply H. reflexivity.
Defined.

Lemma stockTask_miss E symbol w :
  truthy (fst <$> store w !! Snapshot.redisStockKey symbol) = None ->
  Snapshot.stockTask E symbol w =
    (await price <- Snapshot.fetchAndStoreStock E symbol;
     ret (symbol, price)) w.
Proof.
  intros Hmiss. unfold Snapshot.stockTask. unfold bind at 1.
  unfold cli_get. simpl. now rewrite Hmiss.
Qed.

(** X10: a reply without data is cached like a price: an empty series, or
    any 2xx body whose first element has no [close], is stored as [null]
    for three hours, and the next request for the symbol is answered [null]
    from the store without asking the provider again. *)
Theorem no_data_is_cached_as_null E symbol w st b data first :
  truthy (fst <$> store w !! Snapshot.redisStockKey symbol) = None ->
  upstream E (calls w) (Snapshot.stockUrl E symbol) = Http st b ->
  ok (mkResponse st b) = true ->
  JSON_parse E b = Return data ->
  index0 data = Return first ->
  optional_close first = None ->
  JSON_stringify E JNull <> "" ->
  JSON_parse E (JSON_stringify E JNull) = Return JNull ->
  let r1 := Snapshot.stockTask E symbol w in
  let r2 := Snapshot.stockTask E symbol r1.2 in
  r1.1 = Return (symbol, JNull) /\
  store r1.2 !! Snapshot.redisStockKey symbol
    = Some (JSON_stringify E JNull, 10800) /\
  r2.1 = Return (symbol, JNull) /\
  calls r2.2 = calls r1.2.
Proof.
  intros Hmiss Hup Hok Hparse Hfirst Hclose Hne Hback. cbv zeta.
  assert (Hrun : exists w1,
            Snapshot.stockTask E symbol w = (Return (symbol, JNull), w1) /\
            store w1 = <[Snapshot.redisStockKey symbol :=
                           (JSON_stringify E JNull, 10800)]> (store w)).
  { rewrite (stockTask_miss E symbol w Hmiss). unfold bind.
    rewrite (fetchAndStoreStock_run E symbol w st b first Hup Hok)
      by now rewrite Hparse.
    rewrite Hclose. simpl. eauto. }
  destruct Hrun as (w1 & -> & Hstore). simpl.
  unfold Snapshot.stockTask. unfold_async. simpl.
  rewrite Hstore, lookup_insert_eq. simpl.
  destruct (JSON_stringify E JNull) eqn:Hs; [done|]. simpl.
  rewrite Hback. done.
Qed.

Lemma no_data_is_cached_as_null_witness :
  let E := Demo.serving (JArr []) in
  let r1 := Snapshot.stockTask E "TSLA" Demo.empty in
  let r2 := Snapshot.stockTask E "TSLA" r1.2 in
  r1.1 = Return ("TSLA", JNull) /\
  store r1.2 !! "stock:TSLA" = Some ("null", 10800) /\
  r2.1 = Return ("TSLA", JNull) /\
  calls r2.2 = calls r1.2.
Proof.
  apply (no_data_is_cached_as_null (Demo.serving (JArr [])) "TSLA" Demo.empty
           200 "[]" (JArr []) None);
    try reflexivity; discriminate.
Defined.

Lemma stockTask_symbol E symbol w r :
  (Snapshot.stockTask E symbol w).1 = Return r -> r.1 = symbol.
Proof.
  unfold Snapshot.stockTask. unfold bind at 1. unfold cli_get. simpl.
  destruct (truthy _) as [cached|].
  - unfold_async. simpl. destruct (JSON_parse E cached); simpl; [|done].
    now intros [= <-].
  - unfold bind, ret. destruct (Snapshot.fetchAndStoreStock E symbol w) as [[p|e] w'];
      simpl; [|done]. now intros [= <-].
Qed.

Lemma resolved_symbols E symbols : forall results w,
  map Return results = outcomes (map (Snapshot.stockTask E) symbols) w ->
  map fst results = symbols.
Proof.
  induction symbols as [|s rest IH]; intros [|r results] w; simpl; try done.
  intros Hmap.
  assert (Hhead : (Snapshot.stockTask E s w).1 = Return r)
    by exact (eq_sym (f_equal (hd (Throw "")) Hmap)).
  assert (Htail : map Return results
                  = outcomes (map (Snapshot.stockTask E) rest)
                             (Snapshot.stockTask E s w).2)
    by exact (f_equal (@tl _) Hmap).
  now rewrite (stockTask_symbol E s w r Hhead), (IH results _ Htail).
Qed.

(** X11: [/api/stocks] has two replies only: the 500 error object, or a 200
    object holding exactly the five symbols, in the order of [SYMBOLS], each
    with the price its resolution gave. *)
Theorem stocksHandler_reply_shape E w :
  let reply := (Snapshot.stocksHandler E w).1 in
  reply = Return (res_status_json 500
                    (JObj [("error", JStr "ERROR: Failed to fetch stocks")])) \/
  exists aapl tsla msft googl nvda,
    reply = Return (res_json (JObj [("AAPL", aapl); ("TSLA", tsla);
                                    ("MSFT", msft); ("GOOGL", googl);
                                    ("NVDA", nvda)])).
Proof.
  cbv zeta.
  destruct (existsb rejected
              (outcomes (map (Snapshot.stockTask E) Snapshot.SYMBOLS) w))
    eqn:Hex.
  - left. apply Promise_all_rejects in Hex as [e He].
    unfold Snapshot.stocksHandler. unfold_async.
    destruct (Promise_all _ w) as [o w']. simpl in He. now subst o.
  - right. apply Promise_all_resolves in Hex as (results & Hres & Hmap).
    unfold Snapshot.stocksHandler. unfold_async.
    destruct (Promise_all _ w) as [o w']. simpl in Hres. subst o.
    apply resolved_symbols in Hmap.
    destruct results as [|[s1 p1] [|[s2 p2] [|[s3 p3] [|[s4 p4]
                          [|[s5 p5] [|]]]]]]; try discriminate Hmap.
    injection Hmap as -> -> -> -> ->.
    exists p1, p2, p3, p4, p5. reflexivity.
Qed.

Lemma stockTask_frame E symbol w key :
  key <> Snapshot.redisStockKey symbol ->
  store (Snapshot.stockTask E symbol w).2 !! key = store w !! key.
Proof.
  intros Hne. unfold Snapshot.stockTask. unfold bind at 1. unfold cli_get.
  simpl. destruct (truthy _) as [cached|].
  - unfold_async. simpl. now destruct (JSON_parse E cached).
  - unfold bind, ret.
    destruct (fetchAndStoreStock_cases E symbol w) as [_ H].
    destruct (Snapshot.fetchAndStoreStock E symbol w) as [o w'].
    simpl in H. destruct (quoteRejected E _).
    + destruct H as [[e ->] Hstore]. simpl. now rewrite Hstore.
    + destruct H as (price & -> & Hstore). simpl. rewrite Hstore.
      now rewrite lookup_insert_ne.
Qed.

Lemma settled_app {A} (xs ys : list (Async A)) w :
  settled (xs ++ ys) w = settled ys (settled xs w).
Proof. revert w. induction xs as [|t xs IH]; intros w; simpl; [done|apply IH]. Qed.

Lemma Promise_all_settled {A} (tasks : list (Async A)) w :
  (Promise_all tasks w).2 = settled tasks w.
Proof.
  revert w. induction tasks as [|t rest IH]; intros w; simpl; [done|].
  destruct (t w) as [o w1]; simpl. rewrite <- IH.
  destruct (Promise_all rest w1) as [os w2]. now destruct o, os.
Qed.

Lemma settled_frame E symbols key w :
  key ∉ map Snapshot.redisStockKey symbols ->
  store (settled (map (Snapshot.stockTask E) symbols) w) !! key
  = store w !! key.
Proof.
  revert w. induction symbols as [|s rest IH]; intros w Hkey; simpl; [done|].
  apply not_elem_of_cons in Hkey as [Hne Hkey].
  rewrite IH by done. now apply stockTask_frame.
Qed.

Lemma SYMBOLS_keys_distinct :
  NoDup (map Snapshot.redisStockKey Snapshot.SYMBOLS).
Proof. apply (bool_decide_unpack _). vm_compute. reflexivity. Qed.

(** X12: the failure of one symbol undoes nothing: a symbol that misses the
    store and whose quote the provider serves ends up cached for three
    hours, whatever happens to the other four and whatever the reply of the
    request is. *)
Theorem stocksHandler_keeps_fetched_quotes E w symbol st b series :
  symbol ∈ Snapshot.SYMBOLS ->
  truthy (fst <$> store w !! Snapshot.redisStockKey symbol) = None ->
  (forall history,
     upstream E history (Snapshot.stockUrl E symbol) = Http st b) ->
  ok (mkResponse st b) = true ->
  JSON_parse E b = Return (JArr series) ->
  store (Snapshot.stocksHandler E w).2 !! Snapshot.redisStockKey symbol
  = Some (JSON_stringify E (or_null (optional_close (head series))), 10800).
Proof.
  intros Hin Hmiss Hup Hok Hparse.
  assert (Hworld : (Snapshot.stocksHandler E w).2
                   = settled (map (Snapshot.stockTask E) Snapshot.SYMBOLS) w).
  { rewrite <- Promise_all_settled. unfold Snapshot.stocksHandler.
    unfold_async. now destruct (Promise_all _ w) as [[results|e] w']. }
  rewrite Hworld.
  apply list_elem_of_split in Hin as (before & after & Hsplit).
  pose proof SYMBOLS_keys_distinct as Hnodup.
  rewrite Hsplit in Hnodup |- *.
  rewrite map_app in Hnodup. simpl in Hnodup.
  apply NoDup_app in Hnodup as (_ & Hbefore & Hafter).
  apply NoDup_cons in Hafter as [Hafter _].
  rewrite map_app, settled_app. simpl.
  rewrite settled_frame by exact Hafter.
  set (w0 := settled (map (Snapshot.stockTask E) before) w).
  assert (Hmiss0 : truthy (fst <$> store w0 !! Snapshot.redisStockKey symbol)
                   = None).
  { subst w0. rewrite settled_frame; [exact Hmiss|].
    intros Hk. apply (Hbefore _ Hk). left. }
  rewrite (stockTask_miss E symbol w0 Hmiss0). unfold bind.
  rewrite (fetchAndStoreStock_run E symbol w0 st b (head series) (Hup _) Hok)
    by now rewrite Hparse.
  simpl. now rewrite lookup_insert_eq.
Qed.

Lemma stocksHandler_keeps_fetched_quotes_witness :
  let E := Demo.quotes_except ["NVDA"] in
  (Snapshot.stocksHandler E Demo.empty).1 =
    Return (res_status_json 500
              (JObj [("error", JStr "ERROR: Failed to fetch stocks")])) /\
  store (Snapshot.stocksHandler E Demo.empty).2 !! "stock:MSFT"
    = Some ("172.35", 10800).
Proof.
  split; [reflexivity|].
  apply (stocksHandler_keeps_fetched_quotes (Demo.quotes_except ["NVDA"])
           Demo.empty "MSFT" 200 (Demo.stringify Demo.series) Demo.entries);
    try reflexivity.
  apply (bool_decide_unpack _). reflexivity.
Defined.

(** ** The sweep and the news route together *)

(** X13: after a sweep, every combination whose fetch succeeded is served
    by the news route from the store: the payload the sweep fetched comes
    back and the provider is not asked again. *)
Theorem preloaded_news_is_served_from_store E w i ck data :
  keyspace !! i = Some ck ->
  sweepFetched E (calls w) keyspace i ck = Return data ->
  JSON_stringify E data <> "" ->
  JSON_parse E (JSON_stringify E data) = Return data ->
  let swept := (Server.preloadAllNews E w).2 in
  let r := Server.newsHandler E ck.1 ck.2 swept in
  r.1 = Return (res_json data) /\
  calls r.2 = calls swept /\
  store r.2 = store swept.
Proof.
  intros Hi Hfetched Hne Hback. cbv zeta.
  destruct (preloadAllNews_run E w) as (_ & _ & _ & Hstore).
  specialize (Hstore i ck Hi). rewrite Hfetched in Hstore.
  unfold sweepKey in Hstore.
  unfold Server.newsHandler. unfold_async. simpl.
  rewrite Hstore. simpl.
  destruct (JSON_stringify E data) eqn:Hs; [done|]. simpl.
  rewrite Hback. done.
Qed.

Lemma preloaded_news_is_served_from_store_witness :
  let E := Demo.flaky [("sg", "nation"); ("in", "technology")] in
  let swept := (Server.preloadAllNews E Demo.empty).2 in
  let r := Server.newsHandler E "in" "business" swept in
  r.1 = Return (res_json Demo.headlines) /\
  calls r.2 = calls swept /\
  store r.2 = store swept.
Proof.
  apply (preloaded_news_is_served_from_store
           (Demo.flaky [("sg", "nation"); ("in", "technology")]) Demo.empty
           12%nat ("in", "business") Demo.headlines);
    [reflexivity | reflexivity | discriminate | reflexivity].
Defined.

(** ** The uncached news search *)

Ltac unfold_curnews :=
  unfold Curnews.curnewsHandler, Curnews.curnewsHandlerEn in *.

(** X14: without an API key, absent or empty, the search answers 400 at
    once: nothing is requested, stored or logged. *)
Theorem curnews_needs_an_api_key E term apikey w :
  truthy apikey = None ->
  Curnews.curnewsHandler E term apikey w =
    (Return (res_status_json 400 (JObj [("error", JStr "Missing API key")])), w) /\
  Curnews.curnewsHandlerEn E term apikey w =
    (Return (res_status_json 400 (JObj [("error", JStr "Missing API key")])), w).
Proof.
  intros Hkey. unfold_curnews. unfold_async. now rewrite Hkey.
Qed.

Lemma curnews_needs_an_api_key_witness :
  Curnews.curnewsHandler (Demo.serving Demo.headlines) (Some "rocq") (Some "")
    Demo.empty =
    (Return (res_status_json 400 (JObj [("error", JStr "Missing API key")])),
     Demo.empty) /\
  Curnews.curnewsHandlerEn (Demo.serving Demo.headlines) (Some "rocq") (Some "")
    Demo.empty =
    (Return (res_status_json 400 (JObj [("error", JStr "Missing API key")])),
     Demo.empty).
Proof.
  apply (curnews_needs_an_api_key (Demo.serving Demo.headlines) (Some "rocq")
           (Some "") Demo.empty).
  reflexivity.
Defined.

(** X15: with a key, the search asks the provider once, with the term of the
    request or [Singapore] when there is none, and passes on whatever JSON
    comes back with status 200: the status of the provider's reply is not
    looked at, so its error documents are passed on as successes. *)
Theorem curnews_passes_the_reply_on E term apikey w st b data :
  apikey <> "" ->
  upstream E (calls w)
    (Curnews.searchUrl (default "Singapore" term) apikey) = Http st b ->
  JSON_parse E b = Return data ->
  let r := Curnews.curnewsHandler E term (Some apikey) w in
  r.1 = Return (res_json data) /\
  calls r.2 = calls w ++ [Curnews.searchUrl (default "Singapore" term) apikey] /\
  console r.2 = console w.
Proof.
  intros Hkey Hup Hparse. destruct apikey as [|c key]; [done|].
  unfold_curnews. unfold_async. simpl. rewrite Hup. simpl.
  rewrite Hparse. done.
Qed.

Lemma curnews_passes_the_reply_on_witness :
  let refusing :=
    Demo.runtime (fun _ _ => Http 401 (Demo.stringify Demo.headlines)) in
  let r := Curnews.curnewsHandler refusing None (Some "k") Demo.empty in
  r.1 = Return (res_json Demo.headlines) /\
  calls r.2 = [] ++ ["https://newsapi.org/v2/everything?q=Singapore&apiKey=k"] /\
  console r.2 = [].
Proof.
  apply (curnews_passes_the_reply_on
           (Demo.runtime (fun _ _ => Http 401 (Demo.stringify Demo.headlines)))
           None "k" Demo.empty 401 (Demo.stringify Demo.headlines)
           Demo.headlines);
    [discriminate | reflexivity | reflexivity].
Defined.

(** X16: the search is not cached and always answers: whatever the request
    and the provider's reply, the store is left as it was and the reply is
    a 200, the 400 of the missing key, or the 500 with the fixed message
    that hides the cause. *)
Theorem curnews_never_caches E term apikey w :
  let r := Curnews.curnewsHandler E term apikey w in
  let r' := Curnews.curnewsHandlerEn E term apikey w in
  store r.2 = store w /\ store r'.2 = store w /\
  (exists sent, r.1 = Return sent /\
     (code sent = 200 \/
      sent = res_status_json 400 (JObj [("error", JStr "Missing API key")]) \/
      sent = res_status_json 500 (JObj [("error", JStr "Failed to fetch news")]))) /\
  (exists sent, r'.1 = Return sent /\
     (code sent = 200 \/
      sent = res_status_json 400 (JObj [("error", JStr "Missing API key")]) \/
      sent = res_status_json 500 (JObj [("error", JStr "Failed to fetch news")]))).
Proof.
  unfold_curnews. unfold_async. simpl.
  destruct (truthy apikey) as [key|]; simpl;
    [ destruct (upstream E (calls w) (Curnews.searchUrl _ _)) as [e|st b],
               (upstream E (calls w) (Curnews.searchUrlEn _ _)) as [e'|st' b'];
      simpl; try destruct (JSON_parse E b); try destruct (JSON_parse E b');
      simpl |];
    repeat split; try reflexivity;
    (eexists; split; [reflexivity|];
     first [ left; reflexivity | right; left; reflexivity
           | right; right; reflexivity ]).
Qed.

(** * Accounts, tasks and notes *)

Ltac unfold_db :=
  unfold Metodo.attempt, Metodo.andThen, Metodo.pure, Metodo.raise,
    Metodo.sync, Metodo.print, Metodo.draw, Metodo.now, Metodo.collection,
    Metodo.with_users, Metodo.with_tasks, Metodo.with_notes in *.

Ltac unfold_metodo :=
  unfold Metodo.serve, Metodo.route, Metodo.register, Metodo.login,
    Metodo.getTasks, Metodo.addTask, Metodo.toggleTask, Metodo.deleteTask,
    Metodo.getNotes, Metodo.addNote, Metodo.getNote, Metodo.updateNote,
    Metodo.deleteNote, Metodo.value_of in *.

(** ** The connection *)

Lemma connectDB_keeps_collections S w :
  let r := Metodo.connectDB S w in
  Metodo.users r.2 = Metodo.users w /\
  Metodo.tasks r.2 = Metodo.tasks w /\
  Metodo.notes r.2 = Metodo.notes w /\
  Metodo.clock r.2 = Metodo.clock w /\
  Metodo.issued r.2 = Metodo.issued w.
Proof.
  unfold Metodo.connectDB.
  destruct (Metodo.connected w), (Metodo.connect S), (Metodo.createIndex S);
    simpl; done.
Qed.

Lemma connectDB_available S w :
  Metodo.available S w = true ->
  exists w1,
    Metodo.connectDB S w = (Return true, w1) /\
    Metodo.connected w1 = true /\ Metodo.db w1 = true /\
    Metodo.users w1 = Metodo.users w /\
    Metodo.tasks w1 = Metodo.tasks w /\
    Metodo.notes w1 = Metodo.notes w /\
    Metodo.clock w1 = Metodo.clock w /\
    Metodo.issued w1 = Metodo.issued w.
Proof.
  unfold Metodo.available, Metodo.connectDB.
  destruct (Metodo.connected w) eqn:Hc; simpl.
  - intros Hd. exists w. rewrite Hd. repeat split; done.
  - destruct (Metodo.connect S); [|done]. intros _.
    destruct (Metodo.createIndex S); eexists; repeat split; reflexivity.
Qed.

(** X17: [connectDB] connects once: after a call that succeeded, a further
    call returns the same database without connecting again, whatever
    [client.connect()] would now do, and changes nothing. *)
Theorem connectDB_connects_once S S' w :
  Metodo.available S w = true ->
  let w1 := (Metodo.connectDB S w).2 in
  Metodo.connectDB S' w1 = (Return true, w1).
Proof.
  intros Hav. destruct (connectDB_available S w Hav) as (w1 & -> & Hc & Hd & _).
  simpl. unfold Metodo.connectDB. now rewrite Hc, Hd.
Qed.

Lemma connectDB_connects_once_witness :
  let w1 := (Metodo.connectDB DemoDb.up DemoDb.fresh).2 in
  Metodo.connectDB DemoDb.down w1 = (Return true, w1).
Proof.
  apply (connectDB_connects_once DemoDb.up DemoDb.down DemoDb.fresh).
  reflexivity.
Defined.

(** ** The token gate *)

(** X18: a protected request whose [authorization] header is absent, empty
    or does not verify is answered 401 before its route runs: the database
    is not connected, nothing is read, written or logged. *)
Theorem request_without_valid_token_is_refused S zero authorization req w :
  (forall token, truthy authorization = Some token ->
     exists e, Metodo.jwt_verify S token (Metodo.clock w) = Throw e) ->
  exists msg,
    Metodo.serve S zero authorization req w
    = (Return (Metodo.status_json 401 (Metodo.Msg msg)), w).
Proof.
  intros Hbad. unfold Metodo.serve, Metodo.authMiddleware.
  destruct (truthy authorization) as [token|]; [|unfold Metodo.pure; eauto].
  destruct (Hbad token eq_refl) as [e ->]. eauto.
Qed.

Lemma request_without_valid_token_is_refused_witness :
  exists msg,
    Metodo.serve DemoDb.up DemoDb.zero (Some "Bearer forged")
      (Metodo.DeleteTask DemoDb.taxes) DemoDb.busy
    = (Return (Metodo.status_json 401 (Metodo.Msg msg)), DemoDb.busy).
Proof.
  apply (request_without_valid_token_is_refused DemoDb.up DemoDb.zero
           (Some "Bearer forged") (Metodo.DeleteTask DemoDb.taxes) DemoDb.busy).
  intros token [= <-]. eexists. reflexivity.
Defined.

(** ** Whose documents a route touches *)

Lemma remove_first_keeps {A} (p q : A -> bool) l :
  (forall x, p x = true -> q x = false) ->
  List.filter q (Metodo.remove_first p l).1 = List.filter q l.
Proof.
  intros Hpq. induction l as [|x l IH]; simpl; [done|].
  destruct (p x) eqn:Hp; simpl.
  - now rewrite (Hpq x Hp).
  - destruct (Metodo.remove_first p l) as [l' n]. simpl in *.
    now rewrite IH.
Qed.

Lemma update_first_keeps {A} (p q : A -> bool) (f : A -> A) l :
  (forall x, p x = true -> q x = false) ->
  (forall x, q (f x) = q x) ->
  List.filter q (Metodo.update_first p f l).1 = List.filter q l.
Proof.
  intros Hpq Hf. induction l as [|x l IH]; simpl; [done|].
  destruct (p x) eqn:Hp; simpl.
  - now rewrite Hf, (Hpq x Hp).
  - destruct (Metodo.update_first p f l) as [l' found]. simpl in *.
    now rewrite IH.
Qed.

Lemma filter_snoc_out {A} (q : A -> bool) l x :
  q x = false -> List.filter q (l ++ [x]) = List.filter q l.
Proof.
  intros Hq. rewrite List.filter_app. simpl. rewrite Hq. apply app_nil_r.
Qed.

Lemma ownTask_owner id owner t :
  Metodo.ownTask id owner t = true ->
  negb (String.eqb (Metodo.task_userId t) owner) = false.
Proof.
  unfold Metodo.ownTask. intros [_ ->]%andb_prop. done.
Qed.

Lemma ownNote_owner id owner n :
  Metodo.ownNote id owner n = true ->
  negb (String.eqb (Metodo.note_userId n) owner) = false.
Proof.
  unfold Metodo.ownNote. intros [_ ->]%andb_prop. done.
Qed.

Ltac crack_one :=
  match goal with
  | |- context [Metodo.ObjectId ?S ?p] =>
      destruct (Metodo.ObjectId S p) eqn:?
  | |- context [List.find ?p ?l] => destruct (List.find p l) eqn:?
  | |- context [let '(_, _) := ?X in _] => rewrite (surjective_pairing X)
  | |- context [Metodo.done ?t] => destruct (Metodo.done t) eqn:?
  | |- context [(?n =? 0)%Z] => destruct (n =? 0)%Z eqn:?
  | |- context [if Metodo.db ?w then _ else _] => destruct (Metodo.db w) eqn:?
  | |- context [if Metodo.modifyResult ?S then _ else _] =>
      destruct (Metodo.modifyResult S) eqn:?
  | |- context [match (Metodo.update_first ?p ?f ?l).2 with _ => _ end] =>
      destruct (Metodo.update_first p f l).2 eqn:?
  end.

Ltac crack := repeat (unfold_db; simpl; crack_one); unfold_db; simpl.

Ltac others_kept :=
  repeat first
    [ rewrite filter_snoc_out by (simpl; now rewrite String.eqb_refl)
    | rewrite update_first_keeps
        by first [ apply ownTask_owner | apply ownNote_owner | done ]
    | rewrite remove_first_keeps
        by first [ apply ownTask_owner | apply ownNote_owner ] ].

(** X19: a route changes no document of another user and no account: run
    for a caller, it leaves the tasks and the notes of everybody else, and
    the users, exactly as they were, whatever identifier the request names. *)
Theorem routes_keep_the_documents_of_others S zero req id owner w :
  Metodo.ObjectId S id = Return owner ->
  let w' := (Metodo.route S zero req id w).2 in
  Metodo.users w' = Metodo.users w /\
  Metodo.tasksOfOthers owner w' = Metodo.tasksOfOthers owner w /\
  Metodo.notesOfOthers owner w' = Metodo.notesOfOthers owner w.
Proof.
  intros Hid. cbv zeta.
  pose proof (connectDB_keeps_collections S w) as (Hu & Ht & Hn & _).
  unfold Metodo.tasksOfOthers, Metodo.notesOfOthers.
  destruct req; unfold_metodo; unfold_db;
    try (destruct (Metodo.connectDB S w) as [[[]|e] w1]; simpl in Hu, Ht, Hn);
    rewrite ?Hid; crack; rewrite ?Hu, ?Ht, ?Hn; others_kept; done.
Qed.

Lemma routes_keep_the_documents_of_others_witness :
  let w' := (Metodo.route DemoDb.up DemoDb.zero
               (Metodo.DeleteTask DemoDb.taxes) DemoDb.alice DemoDb.busy).2 in
  Metodo.users w' = Metodo.users DemoDb.busy /\
  Metodo.tasksOfOthers DemoDb.alice w'
    = Metodo.tasksOfOthers DemoDb.alice DemoDb.busy /\
  Metodo.notesOfOthers DemoDb.alice w'
    = Metodo.notesOfOthers DemoDb.alice DemoDb.busy.
Proof.
  apply (routes_keep_the_documents_of_others DemoDb.up DemoDb.zero
           (Metodo.DeleteTask DemoDb.taxes) DemoDb.alice DemoDb.alice
           DemoDb.busy).
  reflexivity.
Defined.

(** ** Tasks *)

Lemma update_first_found {A} (p : A -> bool) (f : A -> A) l x :
  List.find p l = Some x ->
  (forall y, p (f y) = p y) ->
  (Metodo.update_first p f l).2 = Some (f x) /\
  List.find p (Metodo.update_first p f l).1 = Some (f x) /\
  length (Metodo.update_first p f l).1 = length l.
Proof.
  intros Hfind Hf. induction l as [|y l IH]; simpl in *; [done|].
  destruct (p y) eqn:Hp.
  - injection Hfind as ->. simpl. now rewrite Hf, Hp.
  - destruct (IH Hfind) as (H2 & H1 & Hlen).
    destruct (Metodo.update_first p f l) as [l' found]. simpl in *.
    now rewrite Hp, H1, Hlen.
Qed.

Lemma update_first_missing {A} (p : A -> bool) (f : A -> A) l :
  List.find p l = None -> Metodo.update_first p f l = (l, None).
Proof.
  induction l as [|y l IH]; simpl; [done|].
  destruct (p y); [done|]. intros H. now rewrite (IH H).
Qed.

Lemma remove_first_found {A} (p : A -> bool) l x :
  List.find p l = Some x ->
  (Metodo.remove_first p l).2 = 1 /\
  Datatypes.S (length (Metodo.remove_first p l).1) = length l.
Proof.
  induction l as [|y l IH]; simpl; [done|].
  destruct (p y); [done|]. intros H. destruct (IH H) as [H2 Hlen].
  destruct (Metodo.remove_first p l) as [l' n]. simpl in *.
  now rewrite Hlen.
Qed.

Lemma remove_first_missing {A} (p : A -> bool) l :
  List.find p l = None -> Metodo.remove_first p l = (l, 0).
Proof.
  induction l as [|y l IH]; simpl; [done|].
  destruct (p y); [done|]. intros H. now rewrite (IH H).
Qed.

(** X20: toggling a task of the caller flips [done] in the store: a task
    that becomes done is stamped with the time of the request, one that
    becomes undone loses its stamp, and no task is added or removed.  The
    answer is a 200; it carries the toggled task when the driver answers
    [{ value: ... }], and no body when the driver answers the document
    itself. *)
Theorem toggleTask_flips_done S param id w _id owner task :
  Metodo.available S w = true ->
  Metodo.ObjectId S param = Return _id ->
  Metodo.ObjectId S id = Return owner ->
  List.find (Metodo.ownTask _id owner) (Metodo.tasks w) = Some task ->
  let r := Metodo.toggleTask S param id w in
  let toggled :=
    Metodo.mkTask (Metodo.task_id task) (Metodo.task_userId task)
      (Metodo.task_title task) (Metodo.task_createdAt task)
      (negb (Metodo.done task))
      (if negb (Metodo.done task) then Some (Metodo.clock w) else None) in
  List.find (Metodo.ownTask _id owner) (Metodo.tasks r.2) = Some toggled /\
  length (Metodo.tasks r.2) = length (Metodo.tasks w) /\
  r.1 = Return (Metodo.json_
                  (if Metodo.modifyResult S
                   then Metodo.TaskValue (Some toggled)
                   else Metodo.Undefined)).
Proof.
  intros Hav Hparam Hid Hfind. cbv zeta.
  destruct (connectDB_available S w Hav)
    as (w1 & Hconn & _ & _ & _ & Ht & _ & Hclock & _).
  unfold Metodo.toggleTask, Metodo.value_of. unfold_db. rewrite Hconn. simpl.
  rewrite Hparam, Hid. simpl. rewrite Ht, Hfind. simpl.
  destruct (Metodo.done task) eqn:Hdone; simpl;
    rewrite (surjective_pairing (Metodo.update_first _ _ _)); simpl;
    rewrite Ht, ?Hclock;
    match goal with
    | |- context [Metodo.update_first ?p ?f ?l] =>
        destruct (update_first_found p f l task Hfind (fun y => eq_refl))
          as (H2 & H1 & Hlen)
    end;
    rewrite H2; destruct (Metodo.modifyResult S); simpl;
    rewrite H1, Hlen; done.
Qed.

Lemma toggleTask_flips_done_witness :
  let toggled :=
    Metodo.mkTask DemoDb.chores DemoDb.alice (JStr "chores") 1690000000 true
      (Some 1700000000) in
  (let r := Metodo.toggleTask DemoDb.up DemoDb.chores DemoDb.alice
              DemoDb.busy in
   List.find (Metodo.ownTask DemoDb.chores DemoDb.alice) (Metodo.tasks r.2)
     = Some toggled /\
   length (Metodo.tasks r.2) = length (Metodo.tasks DemoDb.busy) /\
   r.1 = Return (Metodo.json_ (Metodo.TaskValue (Some toggled)))) /\
  (let r := Metodo.toggleTask DemoDb.recent DemoDb.chores DemoDb.alice
              DemoDb.busy in
   List.find (Metodo.ownTask DemoDb.chores DemoDb.alice) (Metodo.tasks r.2)
     = Some toggled /\
   length (Metodo.tasks r.2) = length (Metodo.tasks DemoDb.busy) /\
   r.1 = Return (Metodo.json_ Metodo.Undefined)).
Proof.
  split.
  - apply (toggleTask_flips_done DemoDb.up DemoDb.chores DemoDb.alice
             DemoDb.busy DemoDb.chores DemoDb.alice
             (Metodo.mkTask DemoDb.chores DemoDb.alice (JStr "chores")
                1690000000 false None));
      reflexivity.
  - apply (toggleTask_flips_done DemoDb.recent DemoDb.chores DemoDb.alice
             DemoDb.busy DemoDb.chores DemoDb.alice
             (Metodo.mkTask DemoDb.chores DemoDb.alice (JStr "chores")
                1690000000 false None));
      reflexivity.
Defined.

(** X21: a task that is not the caller's cannot be toggled: when no task
    has both the identifier of the path and the caller as owner, the
    answer is 404 and the tasks stay as they were, also when the identifier
    is a task of somebody else. *)
Theorem toggleTask_of_another_is_not_found S param id w _id owner :
  Metodo.available S w = true ->
  Metodo.ObjectId S param = Return _id ->
  Metodo.ObjectId S id = Return owner ->
  List.find (Metodo.ownTask _id owner) (Metodo.tasks w) = None ->
  let r := Metodo.toggleTask S param id w in
  r.1 = Return (Metodo.status_json 404 (Metodo.Msg "Task not found ❌")) /\
  Metodo.tasks r.2 = Metodo.tasks w.
Proof.
  intros Hav Hparam Hid Hfind. cbv zeta.
  destruct (connectDB_available S w Hav)
    as (w1 & Hconn & _ & _ & _ & Ht & _).
  unfold Metodo.toggleTask. unfold_db. rewrite Hconn. simpl.
  rewrite Hparam, Hid. simpl. rewrite Ht, Hfind. simpl. done.
Qed.

Lemma toggleTask_of_another_is_not_found_witness :
  let r := Metodo.toggleTask DemoDb.up DemoDb.taxes DemoDb.alice DemoDb.busy in
  r.1 = Return (Metodo.status_json 404 (Metodo.Msg "Task not found ❌")) /\
  Metodo.tasks r.2 = Metodo.tasks DemoDb.busy.
Proof.
  apply (toggleTask_of_another_is_not_found DemoDb.up DemoDb.taxes DemoDb.alice
           DemoDb.busy DemoDb.taxes DemoDb.alice);
    reflexivity.
Defined.

(** X22: deleting a task answers [Task deleted] whether or not a task was
    deleted: when the caller owns no task of that identifier the tasks stay
    as they were and the answer is still the 200, and when the caller owns
    one, one task is gone. *)
Theorem deleteTask_always_reports_success S param id w _id owner :
  Metodo.available S w = true ->
  Metodo.ObjectId S param = Return _id ->
  Metodo.ObjectId S id = Return owner ->
  let r := Metodo.deleteTask S param id w in
  r.1 = Return (Metodo.json_ (Metodo.Msg "Task deleted ✅")) /\
  (List.find (Metodo.ownTask _id owner) (Metodo.tasks w) = None ->
   Metodo.tasks r.2 = Metodo.tasks w) /\
  (forall task,
     List.find (Metodo.ownTask _id owner) (Metodo.tasks w) = Some task ->
     Datatypes.S (length (Metodo.tasks r.2)) = length (Metodo.tasks w)).
Proof.
  intros Hav Hparam Hid. cbv zeta.
  destruct (connectDB_available S w Hav)
    as (w1 & Hconn & _ & _ & _ & Ht & _).
  unfold Metodo.deleteTask. unfold_db. rewrite Hconn. simpl.
  rewrite Hparam, Hid. simpl. rewrite Ht. split; [done|]. split.
  - intros Hfind. now rewrite (remove_first_missing _ _ Hfind).
  - intros task Hfind. now destruct (remove_first_found _ _ _ Hfind).
Qed.

Lemma deleteTask_always_reports_success_witness :
  let r := Metodo.deleteTask DemoDb.up DemoDb.taxes DemoDb.alice DemoDb.busy in
  r.1 = Return (Metodo.json_ (Metodo.Msg "Task deleted ✅")) /\
  Metodo.tasks r.2 = Metodo.tasks DemoDb.busy.
Proof.
  pose proof (deleteTask_always_reports_success DemoDb.up DemoDb.taxes
                DemoDb.alice DemoDb.busy DemoDb.taxes DemoDb.alice
                eq_refl eq_refl eq_refl)
    as (Hreply & Hmissing & _).
  split; [exact Hreply | apply Hmissing; reflexivity].
Defined.

(** ** Notes *)

(** X23: deleting a note does report a miss: when the caller owns no note
    of that identifier the answer is 404 and the notes stay as they were;
    when the caller owns one, one note is gone and the answer is 200. *)
Theorem deleteNote_reports_a_miss S param id w _id owner :
  Metodo.available S w = true ->
  Metodo.ObjectId S param = Return _id ->
  Metodo.ObjectId S id = Return owner ->
  let r := Metodo.deleteNote S param id w in
  (List.find (Metodo.ownNote _id owner) (Metodo.notes w) = None ->
   r.1 = Return (Metodo.status_json 404 (Metodo.Msg "Note not found ❌")) /\
   Metodo.notes r.2 = Metodo.notes w) /\
  (forall note,
     List.find (Metodo.ownNote _id owner) (Metodo.notes w) = Some note ->
     r.1 = Return (Metodo.json_ (Metodo.Msg "Note deleted ✅")) /\
     Datatypes.S (length (Metodo.notes r.2)) = length (Metodo.notes w)).
Proof.
  intros Hav Hparam Hid. cbv zeta.
  destruct (connectDB_available S w Hav)
    as (w1 & Hconn & _ & _ & _ & _ & Hn & _).
  unfold Metodo.deleteNote. unfold_db. rewrite Hconn. simpl.
  rewrite Hparam, Hid. simpl. rewrite Hn.
  rewrite (surjective_pairing (Metodo.remove_first _ _)). simpl. split.
  - intros Hfind. now rewrite (remove_first_missing _ _ Hfind).
  - intros note Hfind. destruct (remove_first_found _ _ _ Hfind) as [-> Hlen].
    done.
Qed.

Lemma deleteNote_reports_a_miss_witness :
  let r := Metodo.deleteNote DemoDb.up DemoDb.diary DemoDb.alice DemoDb.busy in
  r.1 = Return (Metodo.status_json 404 (Metodo.Msg "Note not found ❌")) /\
  Metodo.notes r.2 = Metodo.notes DemoDb.busy.
Proof.
  pose proof (deleteNote_reports_a_miss DemoDb.up DemoDb.diary DemoDb.alice
                DemoDb.busy DemoDb.diary DemoDb.alice eq_refl eq_refl eq_refl)
    as (Hmissing & _).
  apply Hmissing. reflexivity.
Defined.

(** X24: [POST /api/notes] does not connect and has no [try]: as long as no
    other route has connected the database its handler rejects with the
    error of reading [collection] of [undefined], even when the database
    could be reached; nothing is stored. *)
Theorem addNote_rejects_before_any_connection S zero title id owner w :
  Metodo.db w = false ->
  Metodo.ObjectId S id = Return owner ->
  Metodo.addNote S zero title id w
  = (Throw "Cannot read properties of undefined (reading 'collection')", w).
Proof.
  intros Hdb Hid. unfold Metodo.addNote. unfold_db. rewrite Hid. simpl.
  now rewrite Hdb.
Qed.

Lemma addNote_rejects_before_any_connection_witness :
  Metodo.available DemoDb.up DemoDb.fresh = true /\
  Metodo.serve DemoDb.up DemoDb.zero (Some "jwt.aaaaaaaaaaaaaaaaaaaaaaaa")
    (Metodo.AddNote (Some (JStr "groceries"))) DemoDb.fresh
  = (Throw "Cannot read properties of undefined (reading 'collection')",
     DemoDb.fresh).
Proof.
  split; [reflexivity|].
  apply (addNote_rejects_before_any_connection DemoDb.up DemoDb.zero
           (Some (JStr "groceries")) DemoDb.alice DemoDb.alice DemoDb.fresh);
    reflexivity.
Defined.

(** X25: once [db] is assigned, [POST /api/notes] appends one note of the
    caller with empty content and the time of the request, and answers it
    with its new identifier; a title that is absent or empty becomes
    [Untitled Note], any other string is kept. *)
Theorem addNote_stores_the_note S zero title id owner w :
  Metodo.db w = true ->
  Metodo.ObjectId S id = Return owner ->
  let note :=
    Metodo.mkNote (Metodo.generate S (Metodo.issued w)) owner
      (Metodo.or_else zero title (JStr "Untitled Note")) (JStr "")
      (Metodo.clock w) in
  let r := Metodo.addNote S zero title id w in
  r.1 = Return (Metodo.json_ (Metodo.NoteValue (Some note))) /\
  Metodo.notes r.2 = Metodo.notes w ++ [note] /\
  Metodo.tasks r.2 = Metodo.tasks w /\
  (title = None \/ title = Some (JStr "") ->
   Metodo.note_title note = JStr "Untitled Note") /\
  (forall c s, title = Some (JStr (String c s)) ->
   Metodo.note_title note = JStr (String c s)).
Proof.
  intros Hdb Hid. cbv zeta. unfold Metodo.addNote. unfold_db.
  rewrite Hid. simpl. rewrite Hdb. simpl.
  repeat split; try done.
  all: try (intros [-> | ->]; done).
  all: intros c s ->; done.
Qed.

Lemma addNote_stores_the_note_witness :
  let r := Metodo.addNote DemoDb.up DemoDb.zero (Some (JStr "")) DemoDb.alice
             DemoDb.busy in
  Metodo.notes r.2 =
    Metodo.notes DemoDb.busy ++
    [Metodo.mkNote "65f000000000000000000010" DemoDb.alice
       (JStr "Untitled Note") (JStr "") 1700000000].
Proof.
  pose proof (addNote_stores_the_note DemoDb.up DemoDb.zero (Some (JStr ""))
                DemoDb.alice DemoDb.alice DemoDb.busy eq_refl eq_refl)
    as (_ & Hnotes & _).
  exact Hnotes.
Defined.

(** ** Errors *)

Ltac answered :=
  eexists; split; [reflexivity|]; simpl;
  first [ left; reflexivity | right; left; reflexivity
        | right; right; reflexivity ].

(** X26: every route whose body is inside a [try] always answers, with
    200, 404 or 500, and so do registration and login, with 200, 400 or
    500: whatever the services do, no error escapes those handlers. *)
Theorem guarded_routes_always_answer S zero req id email password w :
  (Metodo.guarded req = true ->
   exists a, (Metodo.route S zero req id w).1 = Return a /\
     (Metodo.answer_status a = 200 \/ Metodo.answer_status a = 404 \/
      Metodo.answer_status a = 500)) /\
  (exists a, (Metodo.register S email password w).1 = Return a /\
     (Metodo.answer_status a = 200 \/ Metodo.answer_status a = 400 \/
      Metodo.answer_status a = 500)) /\
  (exists a, (Metodo.login S email password w).1 = Return a /\
     (Metodo.answer_status a = 200 \/ Metodo.answer_status a = 400 \/
      Metodo.answer_status a = 500)).
Proof.
  split; [|split].
  - intros Hguarded. destruct req; try discriminate Hguarded;
      unfold_metodo; unfold_db;
      destruct (Metodo.connectDB S w) as [[[]|e] w1];
      crack; answered.
  - unfold_metodo; unfold_db.
    destruct (Metodo.connectDB S w) as [[[]|e] w1]; crack;
      try (destruct (_ && _); simpl); answered.
  - unfold_metodo; unfold_db.
    destruct (Metodo.connectDB S w) as [[[]|e] w1]; crack;
      try (destruct (Metodo.bcrypt_compare _ _ _); simpl);
      try (destruct (Metodo.jwt_sign _ _ _); simpl); answered.
Qed.

Lemma guarded_routes_always_answer_witness :
  exists a,
    (Metodo.route DemoDb.down DemoDb.zero Metodo.GetTasks "not an id"
       DemoDb.fresh).1 = Return a /\
    (Metodo.answer_status a = 200 \/ Metodo.answer_status a = 404 \/
     Metodo.answer_status a = 500).
Proof.
  destruct (guarded_routes_always_answer DemoDb.down DemoDb.zero
              Metodo.GetTasks "not an id" "" "" DemoDb.fresh) as (H & _).
  apply H. reflexivity.
Defined.

(** X27: when [connectDB] yields no database, because the connection
    cannot be made, every guarded route, registration and login answer the
    same 500 [Server error] and leave the collections as they were. *)
Theorem unreachable_database_is_a_server_error S zero req id email password w :
  Metodo.available S w = false ->
  let failed (r : Outcome Metodo.Answer * Metodo.Mongo) :=
    r.1 = Return (Metodo.status_json 500 (Metodo.Msg "Server error")) /\
    Metodo.users r.2 = Metodo.users w /\
    Metodo.tasks r.2 = Metodo.tasks w /\
    Metodo.notes r.2 = Metodo.notes w in
  (Metodo.guarded req = true -> failed (Metodo.route S zero req id w)) /\
  failed (Metodo.register S email password w) /\
  failed (Metodo.login S email password w).
Proof.
  intros Hav. cbv zeta.
  assert (Hconn : Metodo.connectDB S w = (Return false, w) \/
                  exists e, Metodo.connectDB S w = (Throw e, w)).
  { unfold Metodo.available in Hav. unfold Metodo.connectDB.
    destruct (Metodo.connected w); simpl.
    - left. now rewrite Hav.
    - destruct (Metodo.connect S); [done|]. eauto. }
  split; [|split].
  - intros Hguarded. destruct req; try discriminate Hguarded;
      unfold_metodo; unfold_db;
      destruct Hconn as [-> | [e ->]]; crack; done.
  - unfold_metodo; unfold_db. destruct Hconn as [-> | [e ->]]; crack; done.
  - unfold_metodo; unfold_db. destruct Hconn as [-> | [e ->]]; crack; done.
Qed.

Lemma unreachable_database_is_a_server_error_witness :
  let r := Metodo.login DemoDb.down "alice@example.org" "wonderland"
             DemoDb.fresh in
  r.1 = Return (Metodo.status_json 500 (Metodo.Msg "Server error")) /\
  Metodo.users r.2 = Metodo.users DemoDb.fresh /\
  Metodo.tasks r.2 = Metodo.tasks DemoDb.fresh /\
  Metodo.notes r.2 = Metodo.notes DemoDb.fresh.
Proof.
  pose proof (unreachable_database_is_a_server_error DemoDb.down DemoDb.zero
                Metodo.GetTasks "" "alice@example.org" "wonderland"
                DemoDb.fresh eq_refl)
    as (_ & _ & H).
  exact H.
Defined.

(** X28: a path identifier that [ObjectId] refuses is answered 500
    [Server error], not 404, by every route that reads one, and changes
    nothing in the collections. *)
Theorem malformed_identifier_is_a_server_error S zero req id w p e :
  Metodo.param req = Some p ->
  Metodo.ObjectId S p = Throw e ->
  let r := Metodo.route S zero req id w in
  r.1 = Return (Metodo.status_json 500 (Metodo.Msg "Server error")) /\
  Metodo.users r.2 = Metodo.users w /\
  Metodo.tasks r.2 = Metodo.tasks w /\
  Metodo.notes r.2 = Metodo.notes w.
Proof.
  intros Hp Hbad. cbv zeta.
  pose proof (connectDB_keeps_collections S w) as (Hu & Ht & Hn & _).
  destruct req; try discriminate Hp; injection Hp as ->;
    unfold_metodo; unfold_db;
    destruct (Metodo.connectDB S w) as [[[]|e'] w1]; simpl in *;
    rewrite ?Hbad; simpl; done.
Qed.

Lemma malformed_identifier_is_a_server_error_witness :
  let r := Metodo.route DemoDb.up DemoDb.zero (Metodo.GetNote "42")
             DemoDb.alice DemoDb.busy in
  r.1 = Return (Metodo.status_json 500 (Metodo.Msg "Server error")) /\
  Metodo.users r.2 = Metodo.users DemoDb.busy /\
  Metodo.tasks r.2 = Metodo.tasks DemoDb.busy /\
  Metodo.notes r.2 = Metodo.notes DemoDb.busy.
Proof.
  apply (malformed_identifier_is_a_server_error DemoDb.up DemoDb.zero
           (Metodo.GetNote "42") DemoDb.alice DemoDb.busy "42"
           "input must be a 24 character hex string");
    reflexivity.
Defined.

(** ** Accounts *)

Lemma find_snoc_new {A} (p : A -> bool) l x :
  List.find p l = None -> p x = true -> List.find p (l ++ [x]) = Some x.
Proof.
  intros Hnone Hx. induction l as [|y l IH]; simpl in *; [now rewrite Hx|].
  destruct (p y); [done|]. now apply IH.
Qed.

Lemma find_none_existsb {A} (p : A -> bool) l :
  List.find p l = None -> existsb p l = false.
Proof.
  induction l as [|y l IH]; simpl; [done|]. destruct (p y); [done|]. exact IH.
Qed.

Lemma register_new S email password w :
  Metodo.available S w = true ->
  List.find (Metodo.byEmail email) (Metodo.users w) = None ->
  exists w',
    Metodo.register S email password w
    = (Return (Metodo.json_ (Metodo.Msg "Registered successfully ✅")), w') /\
    Metodo.users w' =
      Metodo.users w ++
      [Metodo.mkUser (Metodo.generate S (Datatypes.S (Metodo.issued w))) email
         (Metodo.bcrypt_hash S (Metodo.issued w) password)] /\
    Metodo.connected w' = true /\ Metodo.db w' = true /\
    Metodo.clock w' = Metodo.clock w /\
    Metodo.tasks w' = Metodo.tasks w /\ Metodo.notes w' = Metodo.notes w.
Proof.
  intros Hav Hfind.
  destruct (connectDB_available S w Hav)
    as (w1 & Hconn & Hc & Hd & Hu & Ht & Hn & Hclock & Hi).
  unfold Metodo.register. unfold_db. rewrite Hconn. simpl.
  rewrite Hu, Hfind. simpl. rewrite ?Hu.
  rewrite (find_none_existsb _ _ Hfind), andb_false_r. simpl.
  eexists. split; [reflexivity|]. simpl. rewrite ?Hi, ?Hu. done.
Qed.

(** X29: registration adds an account once.  For an address that is not
    registered it appends one user holding the address and the bcrypt hash
    of the password, never the password itself; for an address that is
    registered it answers 400 and adds nothing, so a second registration of
    the same address is refused whatever password it brings. *)
Theorem register_adds_an_account_once S email password password' w :
  Metodo.available S w = true ->
  List.find (Metodo.byEmail email) (Metodo.users w) = None ->
  let r := Metodo.register S email password w in
  let again := Metodo.register S email password' r.2 in
  r.1 = Return (Metodo.json_ (Metodo.Msg "Registered successfully ✅")) /\
  Metodo.users r.2 =
    Metodo.users w ++
    [Metodo.mkUser (Metodo.generate S (Datatypes.S (Metodo.issued w))) email
       (Metodo.bcrypt_hash S (Metodo.issued w) password)] /\
  again.1 = Return (Metodo.status_json 400 (Metodo.Msg "User already exists ❌")) /\
  Metodo.users again.2 = Metodo.users r.2.
Proof.
  intros Hav Hfind. cbv zeta.
  destruct (register_new S email password w Hav Hfind)
    as (w' & -> & Hu & Hc & Hd & _). simpl.
  split; [done|]. split; [done|].
  unfold Metodo.register, Metodo.connectDB. unfold_db.
  rewrite Hc. simpl. rewrite Hd. simpl. rewrite Hu.
  rewrite (find_snoc_new _ _ _ Hfind)
    by (unfold Metodo.byEmail; simpl; apply String.eqb_refl).
  done.
Qed.

Lemma register_adds_an_account_once_witness :
  let r := Metodo.register DemoDb.up "bob@example.org" "builder" DemoDb.fresh in
  let again := Metodo.register DemoDb.up "bob@example.org" "other" r.2 in
  r.1 = Return (Metodo.json_ (Metodo.Msg "Registered successfully ✅")) /\
  Metodo.users r.2 =
    [] ++ [Metodo.mkUser "65f000000000000000000001" "bob@example.org"
             "$2a$10$0$builder"] /\
  again.1 = Return (Metodo.status_json 400 (Metodo.Msg "User already exists ❌")) /\
  Metodo.users again.2 = Metodo.users r.2.
Proof.
  apply (register_adds_an_account_once DemoDb.up "bob@example.org" "builder"
           "other" DemoDb.fresh);
    reflexivity.
Defined.

(** X30: an account that was just registered can log in: with the password
    of the registration, which bcrypt matches against the stored hash,
    login answers the token signed for the identifier of the new account;
    with a password that bcrypt does not match it answers 400 and no token;
    and an address nobody registered is answered 400 as well. *)
Theorem registered_account_can_log_in S email password other stranger token w :
  Metodo.available S w = true ->
  List.find (Metodo.byEmail email) (Metodo.users w) = None ->
  List.find (Metodo.byEmail stranger)
    (Metodo.users (Metodo.register S email password w).2) = None ->
  Metodo.bcrypt_compare S password
    (Metodo.bcrypt_hash S (Metodo.issued w) password) = true ->
  Metodo.bcrypt_compare S other
    (Metodo.bcrypt_hash S (Metodo.issued w) password) = false ->
  Metodo.jwt_sign S (Metodo.generate S (Datatypes.S (Metodo.issued w)))
    (Metodo.clock w) = Return token ->
  let registered := (Metodo.register S email password w).2 in
  (Metodo.login S email password registered).1
    = Return (Metodo.json_ (Metodo.Token token)) /\
  (Metodo.login S email other registered).1
    = Return (Metodo.status_json 400 (Metodo.Msg "Invalid credentials ❌")) /\
  (Metodo.login S stranger password registered).1
    = Return (Metodo.status_json 400 (Metodo.Msg "User not found ❌")).
Proof.
  intros Hav Hfind. cbv zeta.
  destruct (register_new S email password w Hav Hfind)
    as (w' & -> & Hu & Hc & Hd & Hclock & _). simpl.
  intros Hstranger Hmatch Hother Hsign.
  unfold Metodo.login, Metodo.connectDB. unfold_db.
  rewrite Hc. simpl. rewrite Hd. simpl. rewrite Hstranger, Hu.
  rewrite (find_snoc_new _ _ _ Hfind)
    by (unfold Metodo.byEmail; simpl; apply String.eqb_refl).
  simpl. rewrite Hmatch, Hother. simpl. rewrite Hclock, Hsign. done.
Qed.

Lemma registered_account_can_log_in_witness :
  let registered :=
    (Metodo.register DemoDb.up "bob@example.org" "builder" DemoDb.fresh).2 in
  (Metodo.login DemoDb.up "bob@example.org" "builder" registered).1
    = Return (Metodo.json_ (Metodo.Token "jwt.65f000000000000000000001")) /\
  (Metodo.login DemoDb.up "bob@example.org" "wrecker" registered).1
    = Return (Metodo.status_json 400 (Metodo.Msg "Invalid credentials ❌")) /\
  (Metodo.login DemoDb.up "eve@example.org" "builder" registered).1
    = Return (Metodo.status_json 400 (Metodo.Msg "User not found ❌")).
Proof.
  apply (registered_account_can_log_in DemoDb.up "bob@example.org" "builder"
           "wrecker" "eve@example.org" "jwt.65f000000000000000000001"
           DemoDb.fresh);
    reflexivity.
Defined.
